(** * Lost-and-found report service: the Flask handlers and their properties

    The repository holds three Flask applications over one SQLite file:

    - [app.py]: table [ReportedItem], handlers [dashboard] and [report]
      (with a proof upload filtered by [allowed_file]);
    - [search.py] and [safety.py]: table [Item], handlers [index], [report]
      and [update]; the two files share the model and the handlers line for
      line, [safety.py] adds [create_sample_data].

    A table is a list of rows in insertion order, each row carrying its
    primary key.  A handler is a function from the request and the state
    before to a result (a response, or the HTTP error the handler aborts
    with) and the state after. *)

From Stdlib Require Import ZArith List Ascii Sorted Permutation Lia.
From Stdlib Require String.
From stdpp Require Import base option list sorting gmap strings.

(** Linear arithmetic with division and remainder by constants. *)
Ltac div_lia := zify; Z.to_euclidean_division_equations; lia.

(** ** Strings as Python and SQLite see them *)

Module Str.

(** ['.' in filename]. *)
Fixpoint contains (c : ascii) (s : string) : bool :=
  match s with
  | EmptyString => false
  | String a rest => if Ascii.eqb a c then true else contains c rest
  end.

(** [s.rsplit(sep, 1)]: the list [[s]] when [sep] does not occur in [s],
    else the two pieces around the last occurrence of [sep]. *)
Fixpoint rsplit1 (sep : ascii) (s : string) : list string :=
  match s with
  | EmptyString => [EmptyString]
  | String a rest =>
      match rsplit1 sep rest with
      | [h; t] => [String a h; t]
      | _ => if Ascii.eqb a sep then [EmptyString; rest] else [s]
      end
  end.

(** [c.lower()] on one character of a string held as its UTF-8 bytes: the
    letters A..Z (codes 65..90) go to a..z and every other byte is kept.
    Beyond ASCII, Python lowers more characters, none of them to a string
    made of the letters of [ALLOWED_EXTENSIONS], so [allowed_file] answers
    the same. *)
Definition lower_char (c : ascii) : ascii :=
  let n := N_of_ascii c in
  if (65 <=? n)%N && (n <=? 90)%N then ascii_of_N (n + 32) else c.

(** [s.lower()]. *)
Fixpoint lower (s : string) : string :=
  match s with
  | EmptyString => EmptyString
  | String a rest => String (lower_char a) (lower rest)
  end.

(** [os.path.join(a, b)] on POSIX: an absolute [b] discards [a]. *)
Definition path_join (a b : string) : string :=
  if String.prefix "/" b then b else a +:+ "/" +:+ b.

End Str.

(** ** HTTP plumbing shared by the three applications *)

Inductive http_method := GET | POST.

(** What a handler aborts with: [request.form[k]] and [request.files[k]]
    raise [BadRequestKeyError] (status 400) on a missing key, [get_or_404]
    aborts with status 404, and an exception that no one catches (the
    [OverflowError] of a key SQLite cannot bind) ends in status 500. *)
Inductive http_error :=
| BadRequest (key : string)
| NotFound
| InternalServerError.

#[global] Instance http_method_eq_dec : EqDecision http_method.
Proof. solve_decision. Defined.

#[global] Instance http_error_eq_dec : EqDecision http_error.
Proof. solve_decision. Defined.

(** [werkzeug.datastructures.FileStorage]: the part of an upload the
    handler looks at.  A form posted without a chosen file carries an upload
    whose [filename] is empty. *)
Record FileStorage := mkFile { filename : string; stream : string }.

(** [bool(file)], which [FileStorage.__bool__] defines as [bool(filename)]. *)
Definition file_truthy (f : FileStorage) : bool :=
  negb (bool_decide (filename f = "")).

Record request := mkRequest {
  method : http_method;
  form : gmap string string;
  files : gmap string FileStorage
}.

(** A handler: state in, result and state out.  An abort keeps the state
    reached so far. *)
Definition handler (S A : Type) : Type := S → (http_error + A) * S.

Definition ret {S A} (a : A) : handler S A := λ s, (inr a, s).
Definition abort {S A} (e : http_error) : handler S A := λ s, (inl e, s).
Definition bind {S A B} (m : handler S A) (k : A → handler S B) : handler S B :=
  λ s, match m s with
       | (inr a, s') => k a s'
       | (inl e, s') => (inl e, s')
       end.
Definition get_state {S} : handler S S := λ s, (inr s, s).
Definition modify_state {S} (f : S → S) : handler S unit := λ s, (inr tt, f s).

Notation "'let!' x ':=' m 'in' k" := (bind m (λ x, k))
  (at level 10, x pattern, m at level 100, k at level 200,
   format "'[v' 'let!'  x  :=  m  'in'  '/' k ']'").
Notation "'run!' m 'in' k" := (bind m (λ _, k))
  (at level 10, m at level 100, k at level 200,
   format "'[v' 'run!'  m  'in'  '/' k ']'").

(** [d[key]] on a werkzeug [MultiDict]. *)
Definition getitem {S A} (d : gmap string A) (key : string) : handler S A :=
  match d !! key with
  | Some v => ret v
  | None => abort (BadRequest key)
  end.

(** ** SQL queries shared by the models *)

Section Query.
Context {R : Type} (pk : R → Z).

(** The key SQLite gives the next inserted row of a table whose key is an
    INTEGER PRIMARY KEY: one more than the largest key in the table,
    1 in an empty table. *)
Definition next_id (t : list R) : Z :=
  (1 + foldr (λ r m, Z.max (pk r) m) 0 t)%Z.

(** [Model.query.get(k)]: the row whose primary key is [k]. *)
Fixpoint query_get (k : Z) (t : list R) : option R :=
  match t with
  | [] => None
  | r :: rest => if decide (pk r = k) then Some r else query_get k rest
  end.
End Query.

(** The integers SQLite stores and binds as parameters: 64 bits, signed. *)
Definition is_int64 (k : Z) : Prop := (- 2 ^ 63 ≤ k < 2 ^ 63)%Z.

#[global] Instance is_int64_dec (k : Z) : Decision (is_int64 k).
Proof. unfold is_int64. apply _. Defined.

(** [Model.query.filter_by(status=s).count()]. *)
Definition count_by_status {R} (status : R → string) (s : string) (t : list R) : nat :=
  length (filter (λ r, status r = s) t).

(** The two values of the status enumeration. *)
Definition statuses : list string := ["Lost"; "Found"].

(** ** The wall clock *)

Module Clock.

(** A naive local [datetime], as [datetime.now()] returns it. *)
Record datetime := mkDatetime {
  year : N; month : N; day : N;
  hour : N; minute : N; second : N; microsecond : N
}.

(** The readings the properties below speak for: the ranges the [datetime]
    type enforces, with a year of four digits.  From the year 1000 on [%Y]
    prints four digits on every platform; below it platforms differ (glibc
    does not pad), and [datetime.now()] returns no such year. *)
Definition valid (d : datetime) : Prop :=
  (1000 ≤ year d ≤ 9999 ∧ 1 ≤ month d ≤ 12 ∧ 1 ≤ day d ≤ 31 ∧
   hour d ≤ 23 ∧ minute d ≤ 59 ∧ second d ≤ 59 ∧ microsecond d ≤ 999999)%N.

(** Chronological order of two naive readings: year first, microsecond
    last. *)
Definition key (d : datetime) : list N :=
  [year d; month d; day d; hour d; minute d; second d; microsecond d].

(** The reading cut to the second, which is all the format below prints. *)
Definition to_second (d : datetime) : datetime :=
  mkDatetime (year d) (month d) (day d) (hour d) (minute d) (second d) 0.

Fixpoint lex_le (a b : list N) : Prop :=
  match a, b with
  | x :: a', y :: b' => (x < y)%N ∨ (x = y ∧ lex_le a' b')
  | [], _ => True
  | _ :: _, [] => False
  end.

Definition le (d1 d2 : datetime) : Prop := lex_le (key d1) (key d2).

#[global] Instance valid_dec (d : datetime) : Decision (valid d).
Proof. unfold valid. apply _. Defined.

#[global] Instance lex_le_dec (a b : list N) : Decision (lex_le a b).
Proof. revert b. induction a as [|x a IH]; intros [|y b]; simpl; apply _. Defined.

#[global] Instance le_dec : RelDecision le.
Proof. intros d1 d2. unfold le. apply _. Defined.

Definition digit (n : N) : ascii := ascii_of_N (48 + n).

(** [%m], [%d], [%H], [%M], [%S]: two decimal digits, zero padded. *)
Definition pad2 (n : N) : string :=
  String (digit (n / 10)) (String (digit (n mod 10)) "").

(** [%Y] for a year of four digits (1000 to 9999): its four decimal digits. *)
Definition pad4 (n : N) : string := pad2 (n / 100) +:+ pad2 (n mod 100).

(** [d.strftime("%Y-%m-%d %H:%M:%S")]: the microseconds are not printed. *)
Definition strftime (d : datetime) : string :=
  pad4 (year d) +:+ "-" +:+ pad2 (month d) +:+ "-" +:+ pad2 (day d) +:+ " " +:+
  pad2 (hour d) +:+ ":" +:+ pad2 (minute d) +:+ ":" +:+ pad2 (second d).

End Clock.

(** ** [app.py]: reports with a proof upload, and the dashboard *)

Module App.

(** The model [ReportedItem]; [address] is the one nullable column. *)
Record ReportedItem := mkReportedItem {
  id : Z;
  item_name : string;
  description : string;
  status : string;
  reported_by : string;
  address : option string;
  date : string;
  proof : string
}.

(** The table [reported_item] and the directory [uploads/] (path to content). *)
Record state := mkState {
  table : list ReportedItem;
  uploads : gmap string string
}.

(** The dictionary [data] handed to [dashboard.html]. *)
Record dashboard_data := mkData {
  total_lost : nat;
  total_found : nat;
  recent_activity : list ReportedItem
}.

Inductive response :=
| render_template (name : string) (data : option dashboard_data)
| redirect (endpoint : string).

Definition UPLOAD_FOLDER : string := "uploads".
Definition ALLOWED_EXTENSIONS : list string := ["png"; "jpg"; "jpeg"; "gif"].

(** ['.' in filename and filename.rsplit('.', 1)[1].lower() in ALLOWED_EXTENSIONS].
    The [and] short-circuits, so the index [1] is only taken when the split has
    two pieces ([rsplit1_second] below); the [None] branch stands for the
    [IndexError] that cannot happen. *)
Definition allowed_file (filename : string) : bool :=
  Str.contains "." filename &&
  match Str.rsplit1 "." filename !! 1%nat with
  | Some ext => bool_decide (Str.lower ext ∈ ALLOWED_EXTENSIONS)
  | None => false
  end.

(** [ReportedItem(...)]: a row waiting for its key. *)
Definition new_ReportedItem (item_name description status reported_by : string)
    (address : option string) (date proof : string) : Z → ReportedItem :=
  λ k, {|
    id := k;
    item_name := item_name;
    description := description;
    status := status;
    reported_by := reported_by;
    address := address;
    date := date;
    proof := proof
  |}.

(** [ReportedItem.date.desc()]: [x] comes no later than [y] in the result. *)
Definition date_desc (x y : ReportedItem) : Prop := (date y ≤ date x)%string.

#[global] Instance date_desc_dec : RelDecision date_desc.
Proof. intros x y. unfold date_desc. apply _. Defined.

(** [x] carries a strictly smaller date than [y]. *)
Definition date_before (x y : ReportedItem) : Prop :=
  (date x ≤ date y)%string ∧ date x ≠ date y.

#[global] Instance date_before_dec : RelDecision date_before.
Proof. intros x y. unfold date_before. apply _. Defined.

(** [ReportedItem.query.order_by(ReportedItem.date.desc())].  SQL leaves the
    order of rows with equal dates to the engine; the sort used here is one
    such order. *)
Definition order_by_date_desc (t : list ReportedItem) : list ReportedItem :=
  merge_sort date_desc t.

Definition home : handler state response :=
  ret (render_template "index.html" None).

Definition dashboard : handler state response :=
  let! st := get_state in
  let total_lost := count_by_status status "Lost" (table st) in
  let total_found := count_by_status status "Found" (table st) in
  let recent_activity := take 5 (order_by_date_desc (table st)) in
  let data := mkData total_lost total_found recent_activity in
  ret (render_template "dashboard.html" (Some data)).

(** [file.save(file_path)]. *)
Definition file_save (file : FileStorage) (file_path : string) : handler state unit :=
  modify_state (λ st, mkState (table st) (<[file_path := stream file]> (uploads st))).

(** [db.session.add(new_item)] followed by [db.session.commit()]: the row is
    appended under the key the database assigns. *)
Definition session_add_commit (new_item : Z → ReportedItem) : handler state unit :=
  modify_state (λ st,
    mkState (table st ++ [new_item (next_id id (table st))]) (uploads st)).

Section Handlers.

(** [werkzeug.utils.secure_filename], and the reading of [datetime.now()]
    taken while the request is handled. *)
Variable secure_filename : string → string.
Variable now : Clock.datetime.

Definition report (req : request) : handler state response :=
  match method req with
  | POST =>
      let! item_name := getitem (form req) "item_name" in
      let! description := getitem (form req) "description" in
      let! status := getitem (form req) "status" in
      let! address := getitem (form req) "address" in
      let! file := getitem (files req) "proof" in
      if file_truthy file && allowed_file (filename file) then
        let filename := secure_filename (filename file) in
        let file_path := Str.path_join UPLOAD_FOLDER filename in
        run! file_save file file_path in
        let new_item :=
          new_ReportedItem item_name description status "Anonymous"
                           (Some address) (Clock.strftime now) filename in
        run! session_add_commit new_item in
        ret (redirect "dashboard")
      else ret (render_template "report.html" None)
  | GET => ret (render_template "report.html" None)
  end.

End Handlers.

(** [uploaded_file]: a redirect into the static files. *)
Definition uploaded_file (filename : string) : handler state response :=
  ret (redirect ("static/uploads/" +:+ filename)).

(** The requests the application serves, each report with the clock reading
    taken while it is handled, and the state after a sequence of them,
    starting from the empty table and the empty upload folder. *)
Inductive op :=
| OpHome
| OpDashboard
| OpReport (now : Clock.datetime) (req : request)
| OpUploaded (filename : string).

Definition run_op (secure_filename : string → string) (o : op) (st : state) : state :=
  match o with
  | OpHome => (home st).2
  | OpDashboard => (dashboard st).2
  | OpReport now req => (report secure_filename now req st).2
  | OpUploaded filename => (uploaded_file filename st).2
  end.

Definition run_ops (secure_filename : string → string) (ops : list op) : state :=
  foldl (λ st o, run_op secure_filename o st) (mkState [] ∅) ops.

(** A request that posts no status outside the enumeration. *)
Definition op_in_enum (o : op) : Prop :=
  match o with
  | OpReport _ req => from_option (.∈ statuses) True (form req !! "status")
  | _ => True
  end.

#[global] Instance op_in_enum_dec (o : op) : Decision (op_in_enum o).
Proof.
  destruct o as [| |? req|]; simpl; try apply _.
  destruct (form req !! "status"); simpl; apply _.
Defined.


End App.

(** ** [search.py] and [safety.py]: reports and status updates *)

Module Items.

(** The model [Item]; [proof] and [address] are the nullable columns. *)
Record Item := mkItem {
  id : Z;
  item_name : string;
  description : string;
  reported_by : string;
  contact_info : string;
  status : string;
  proof : option string;
  address : option string
}.

(** The table [item]. *)
Abbreviation state := (list Item).

Inductive context :=
| no_context
| items_context (items : list Item)
| item_context (item : Item).

Inductive response :=
| render_template (name : string) (ctx : context)
| redirect (endpoint : string).

(** [Item(...)]: a row waiting for its key.  A [status] that is not passed
    takes the column default ["Lost"]. *)
Definition new_Item (item_name description reported_by contact_info : string)
    (status : option string) (proof address : option string) : Z → Item :=
  λ k, {|
    id := k;
    item_name := item_name;
    description := description;
    reported_by := reported_by;
    contact_info := contact_info;
    status := default "Lost" status;
    proof := proof;
    address := address
  |}.

(** [db.session.add(new_item)] followed by [db.session.commit()]. *)
Definition session_add_commit (new_item : Z → Item) : handler state unit :=
  modify_state (λ t, t ++ [new_item (next_id id t)]).

(** The row [r] with its [status] overwritten. *)
Definition set_status (s : string) (r : Item) : Item :=
  {|
    id := id r;
    item_name := item_name r;
    description := description r;
    reported_by := reported_by r;
    contact_info := contact_info r;
    status := s;
    proof := proof r;
    address := address r
  |}.

(** One row under [UPDATE item SET status = s WHERE id = item_id]. *)
Definition overwrite_status (item_id : Z) (s : string) (r : Item) : Item :=
  if decide (id r = item_id) then set_status s r else r.

(** [item.status = s] followed by [db.session.commit()]: the UPDATE the
    session flushes, keyed by the primary key of [item]. *)
Definition session_commit_status (item : Item) (s : string) : handler state unit :=
  modify_state (fmap (overwrite_status (id item) s)).

(** What a lookup that finds no row ends in: status 404, or, for a key
    outside SQLite's integers, the [OverflowError] raised when the key is
    bound to the query (status 500). *)
Definition lookup_error (item_id : Z) : http_error :=
  if decide (is_int64 item_id) then NotFound else InternalServerError.

(** [Item.query.get_or_404(item_id)].  SQLite raises on a key it cannot
    bind before it looks at the table; no row has such a key, so on every
    table SQLite can hold the answer is the one given here. *)
Definition get_or_404 (item_id : Z) : handler state Item :=
  let! t := get_state in
  match query_get id item_id t with
  | Some item => ret item
  | None => abort (lookup_error item_id)
  end.

Definition index : handler state response :=
  let! items := get_state in
  ret (render_template "index.html" (items_context items)).

Definition report (req : request) : handler state response :=
  match method req with
  | POST =>
      let! item_name := getitem (form req) "item_name" in
      let! description := getitem (form req) "description" in
      let! reported_by := getitem (form req) "reported_by" in
      let! contact_info := getitem (form req) "contact_info" in
      let! proof := getitem (form req) "proof" in
      let! address := getitem (form req) "address" in
      let new_item :=
        new_Item item_name description reported_by contact_info
                 None (Some proof) (Some address) in
      run! session_add_commit new_item in
      ret (redirect "index")
  | GET => ret (render_template "report.html" no_context)
  end.

Definition update (item_id : Z) (req : request) : handler state response :=
  let! item := get_or_404 item_id in
  match method req with
  | POST =>
      let! status := getitem (form req) "status" in
      run! session_commit_status item status in
      ret (redirect "index")
  | GET => ret (render_template "update.html" (item_context item))
  end.

(** [create_sample_data] of [safety.py]: seeds an empty table
    ([Item.query.first()] is [None]). *)
Definition create_sample_data : handler state unit :=
  let! t := get_state in
  match head t with
  | None =>
      session_add_commit
        (new_Item "Lost Wallet" "A black leather wallet with cash and cards."
                  "Jane Smith" "jane.smith@example.com"
                  (Some "Lost") None (Some "Building B, Room 202"))
  | Some _ => ret tt
  end.

(** The requests the application serves, and the table after a sequence of
    them, starting from the empty table [db.create_all()] leaves. *)
Inductive op :=
| OpIndex
| OpReport (req : request)
| OpUpdate (item_id : Z) (req : request)
| OpSample.

Definition run_op (o : op) (t : state) : state :=
  match o with
  | OpIndex => (index t).2
  | OpReport req => (report req t).2
  | OpUpdate item_id req => (update item_id req t).2
  | OpSample => (create_sample_data t).2
  end.

Definition run_ops (ops : list op) : state := foldl (λ t o, run_op o t) [] ops.

(** A row whose status is one of the two enumerated values. *)
Definition in_enum (r : Item) : Prop := status r ∈ statuses.

(** A request that posts no status outside the enumeration. *)
Definition op_in_enum (o : op) : Prop :=
  match o with
  | OpUpdate _ req => from_option (.∈ statuses) True (form req !! "status")
  | _ => True
  end.

#[global] Instance op_in_enum_dec (o : op) : Decision (op_in_enum o).
Proof.
  destruct o as [|req|? req|]; simpl; try apply _.
  destruct (form req !! "status"); simpl; apply _.
Defined.

End Items.

(** ** Sample requests and clock readings *)

Module Sample.

(** A sanitizer that keeps the names below as they are, as
    [secure_filename] does for names made of letters, digits and dots. *)
Definition keep_name (name : string) : string := name.

Definition wallet_form : gmap string string :=
  list_to_map [("item_name", "Wallet"); ("description", "Black leather");
               ("status", "Found"); ("address", "Building B");
               ("reported_by", "Jane"); ("contact_info", "jane@example.com");
               ("proof", "receipt")].

Definition upload (name : string) : gmap string FileStorage :=
  {[ "proof" := mkFile name "image bytes" ]}.

Definition photo_exe : request := mkRequest POST wallet_form (upload "photo.exe").
Definition photo_jpg : request := mkRequest POST wallet_form (upload "photo.jpg").
Definition photo_no_dot : request := mkRequest POST wallet_form (upload "photo").
Definition no_file_chosen : request := mkRequest POST wallet_form (upload "").

(** The form alone: for [app.py] a submission without the [proof] upload,
    for [search.py] and [safety.py] a complete submission. *)
Definition found_wallet : request := mkRequest POST wallet_form ∅.
Definition no_upload : request := found_wallet.

(** The same submissions without the [status] field, without the
    [item_name] field, and with an empty [item_name]. *)
Definition no_status : request :=
  mkRequest POST (delete "status" wallet_form) (upload "photo.jpg").
Definition no_item_name : request :=
  mkRequest POST (delete "item_name" wallet_form) (upload "photo.jpg").
Definition empty_item_name : request :=
  mkRequest POST (<["item_name" := ""]> wallet_form) (upload "photo.jpg").

(** Status updates. *)
Definition set_to (s : string) : request := mkRequest POST {[ "status" := s ]} ∅.

Definition after_set_back : Clock.datetime := Clock.mkDatetime 2024 11 3 1 0 0 0.
Definition next_morning : Clock.datetime := Clock.mkDatetime 2024 11 3 9 30 0 0.

Definition morning_run : list App.op :=
  [App.OpReport after_set_back photo_jpg; App.OpDashboard;
   App.OpReport next_morning photo_exe; App.OpReport next_morning photo_jpg].

(** Six accepted reports on six successive days. *)
Definition day_reading (d : N) : Clock.datetime := Clock.mkDatetime 2024 11 d 9 30 0 0.
Definition week_run : list App.op :=
  (λ d, App.OpReport (day_reading d) photo_jpg) <$> [4; 5; 6; 7; 8; 9]%N.

Definition app_init : App.state := App.mkState [] ∅.

(** The row [create_sample_data] seeds, and the table that holds it alone. *)
Definition lost_wallet : Items.Item :=
  Items.mkItem 1 "Lost Wallet" "A black leather wallet with cash and cards."
    "Jane Smith" "jane.smith@example.com" "Lost" None (Some "Building B, Room 202").
Definition seeded : list Items.Item := [lost_wallet].

(** Seed the table, then post the status ["Stolen"] for the seeded item. *)
Definition stolen_run : list Items.op :=
  [Items.OpSample; Items.OpUpdate 1 (set_to "Stolen")].

(** Seed, report a wallet, mark it found, list. *)
Definition found_run : list Items.op :=
  [Items.OpSample; Items.OpReport found_wallet; Items.OpUpdate 2 (set_to "Found");
   Items.OpIndex].

End Sample.

(** ** The form fields, in the order the handlers read them *)

Module Forms.

(** [report] of [app.py], before it looks at the upload. *)
Definition app : list string := ["item_name"; "description"; "status"; "address"].

(** [report] of [search.py] and [safety.py]. *)
Definition items : list string :=
  ["item_name"; "description"; "reported_by"; "contact_info"; "proof"; "address"].

End Forms.

#[global] Instance datetime_eq_dec : EqDecision Clock.datetime.
Proof. solve_decision. Defined.

(** ** Further sample requests and tables *)

Module Cases.

(** Two uploads under one name with different bytes. *)
Definition upload_bytes (name bytes : string) : gmap string FileStorage :=
  {[ "proof" := mkFile name bytes ]}.
Definition first_photo : request :=
  mkRequest POST Sample.wallet_form (upload_bytes "photo.jpg" "first image").

(** A submission that lacks the [contact_info] field. *)
Definition no_contact_info : request :=
  mkRequest POST (delete "contact_info" Sample.wallet_form) ∅.

(** A POST with no field at all. *)
Definition empty_post : request := mkRequest POST ∅ ∅.

(** The least id, of those the route [<int:item_id>] accepts, that SQLite
    cannot bind. *)
Definition beyond_int64 : Z := 2 ^ 63.

(** The state of [app.py] after six reports on six days, and the reading of
    the day after. *)
Definition after_week : App.state := App.run_ops Sample.keep_name Sample.week_run.
Definition day_after : Clock.datetime := Sample.day_reading 10.

(** Five reports in the minutes before the local clock is set back an hour,
    and a sixth just after. *)
Definition set_back_six : list App.op :=
  ((λ m, App.OpReport (Clock.mkDatetime 2024 11 3 1 m 0 0) Sample.photo_jpg)
     <$> [55; 56; 57; 58; 59]%N)
  ++ [App.OpReport Sample.after_set_back Sample.photo_jpg].

(** Two readings within one second. *)
Definition early_in_second : Clock.datetime :=
  Clock.mkDatetime 2024 11 3 9 30 0 100.
Definition late_in_second : Clock.datetime :=
  Clock.mkDatetime 2024 11 3 9 30 0 900000.

(** The table of [safety.py] after the seed and one report: the seeded
    wallet under key 1, a reported one under key 2. *)
Definition two_wallets : list Items.op :=
  [Items.OpSample; Items.OpReport Sample.found_wallet].

End Cases.

(** * Properties *)

(** ** Keys and lookups *)

Section QueryFacts.
Context {R : Type} (pk : R → Z).

Lemma next_id_above (t : list R) (r : R) : r ∈ t → (pk r < next_id pk t)%Z.
Proof.
  unfold next_id. induction t as [|x t IH]; intros Hin.
  - by apply elem_of_nil in Hin.
  - apply elem_of_cons in Hin as [->|Hin]; simpl; [lia|].
    specialize (IH Hin). lia.
Qed.

Lemma next_id_positive (t : list R) : (0 < next_id pk t)%Z.
Proof. unfold next_id. induction t; simpl; lia. Qed.

Lemma query_get_Some (k : Z) (t : list R) (r : R) :
  query_get pk k t = Some r → r ∈ t ∧ pk r = k.
Proof.
  induction t as [|x t IH]; simpl; [done|].
  case_decide; intros Hq.
  - simplify_eq. split; [left|done].
  - destruct (IH Hq). split; [by right|done].
Qed.

Lemma query_get_None (k : Z) (t : list R) :
  query_get pk k t = None ↔ ∀ r, r ∈ t → pk r ≠ k.
Proof.
  induction t as [|x t IH]; simpl.
  - split; [intros _ r Hr; by apply elem_of_nil in Hr|done].
  - case_decide as Hx.
    + split; [done|]. intros Hall. destruct (Hall x); [left|done].
    + rewrite IH. split.
      * intros Hall r [->|Hr]%elem_of_cons; auto.
      * intros Hall r Hr. apply Hall. by right.
Qed.

Lemma query_get_app (k : Z) (t1 t2 : list R) :
  query_get pk k (t1 ++ t2) =
  match query_get pk k t1 with Some r => Some r | None => query_get pk k t2 end.
Proof. induction t1 as [|x t1 IH]; simpl; [done|]. by case_decide. Qed.

(** A row inserted under the next key is the row that key finds. *)
Lemma query_get_inserted (t : list R) (r : R) :
  pk r = next_id pk t → query_get pk (next_id pk t) (t ++ [r]) = Some r.
Proof.
  intros Hr. rewrite query_get_app.
  assert (query_get pk (next_id pk t) t = None) as ->.
  { apply query_get_None. intros x Hx%next_id_above. lia. }
  simpl. by rewrite decide_True.
Qed.

(** Rows already in the table are found as before. *)
Lemma query_get_old (t : list R) (r : R) (k : Z) :
  pk r = next_id pk t → k ≠ next_id pk t →
  query_get pk k (t ++ [r]) = query_get pk k t.
Proof.
  intros Hr Hk. rewrite query_get_app. destruct (query_get pk k t); [done|].
  simpl. rewrite decide_False; [done|congruence].
Qed.

End QueryFacts.

(** ** Counting by status *)

Section CountFacts.
Context {R : Type} (status : R → string).

Lemma count_by_status_cons (s : string) (r : R) (t : list R) :
  count_by_status status s (r :: t) =
  ((if decide (status r = s) then 1 else 0) + count_by_status status s t)%nat.
Proof.
  unfold count_by_status. rewrite filter_cons. by case_decide.
Qed.

Lemma count_by_status_app (s : string) (t1 t2 : list R) :
  count_by_status status s (t1 ++ t2) =
  (count_by_status status s t1 + count_by_status status s t2)%nat.
Proof. unfold count_by_status. by rewrite filter_app, length_app. Qed.

(** The rows counted under ["Lost"] and under ["Found"] never exceed the table. *)
Lemma count_lost_found_le (t : list R) :
  (count_by_status status "Lost" t + count_by_status status "Found" t ≤ length t)%nat.
Proof.
  induction t as [|r t IH]; [done|].
  rewrite !count_by_status_cons. simpl.
  repeat case_decide; try lia. congruence.
Qed.

(** They cover the table exactly when every status is one of the two. *)
Lemma count_lost_found_eq (t : list R) :
  count_by_status status "Lost" t + count_by_status status "Found" t = length t
  ↔ Forall (λ r, status r ∈ statuses) t.
Proof.
  induction t as [|r t IH]; [by split|].
  rewrite !count_by_status_cons, Forall_cons. simpl.
  pose proof (count_lost_found_le t) as Hle.
  unfold statuses. rewrite !elem_of_cons, elem_of_nil.
  repeat case_decide; try congruence.
  - rewrite <- IH. split; [intros; split; [by left|lia]|intros [_ ?]; lia].
  - rewrite <- IH. split; [intros; split; [by right; left|lia]|intros [_ ?]; lia].
  - split; [lia|]. intros [[?|[?|[]]] _]; congruence.
Qed.

End CountFacts.

(** ** File names *)

Lemma rsplit1_no_sep (sep : ascii) (s : string) :
  Str.contains sep s = false → Str.rsplit1 sep s = [s].
Proof.
  induction s as [|a s IH]; simpl; [done|].
  destruct (Ascii.eqb a sep); [done|]. intros Hs. by rewrite (IH Hs).
Qed.

(** When the separator occurs the split has two pieces, so the index [1]
    that [allowed_file] takes exists. *)
Lemma rsplit1_second (sep : ascii) (s : string) :
  Str.contains sep s = true → ∃ h t, Str.rsplit1 sep s = [h; t].
Proof.
  induction s as [|a s IH]; simpl; [done|].
  destruct (Str.contains sep s) eqn:Hs.
  - destruct IH as (h & t & ->); [done|]. intros _. by eexists _, _.
  - rewrite (rsplit1_no_sep _ _ Hs). destruct (Ascii.eqb a sep); [|done].
    intros _. by eexists _, _.
Qed.

Lemma allowed_file_no_dot (filename : string) :
  Str.contains "." filename = false → App.allowed_file filename = false.
Proof. unfold App.allowed_file. by intros ->. Qed.

Lemma allowed_file_extension (filename : string) :
  App.allowed_file filename = true ↔
  ∃ h ext, Str.rsplit1 "." filename = [h; ext] ∧ Str.lower ext ∈ App.ALLOWED_EXTENSIONS.
Proof.
  unfold App.allowed_file. split.
  - intros [Hdot Hext]%andb_true_iff.
    destruct (rsplit1_second _ _ Hdot) as (h & ext & Hsplit).
    rewrite Hsplit in Hext. simpl in Hext. apply bool_decide_eq_true in Hext. eauto.
  - intros (h & ext & Hsplit & Hext). rewrite Hsplit. simpl.
    rewrite bool_decide_eq_true_2 by done. rewrite andb_true_r.
    destruct (Str.contains "." filename) eqn:Hdot; [done|].
    rewrite (rsplit1_no_sep _ _ Hdot) in Hsplit. discriminate.
Qed.

(** ** [app.py]: what [report] does to the state *)

Section AppReport.
Variable secure_filename : string → string.
Variable now : Clock.datetime.

Lemma report_GET (req : request) (st : App.state) :
  method req = GET →
  App.report secure_filename now req st =
  (inr (App.render_template "report.html" None), st).
Proof. unfold App.report. by intros ->. Qed.

(** An accepted submission saves the upload and appends one row. *)
Lemma report_accepted (req : request) (st : App.state) (n d s a : string)
    (f : FileStorage) :
  method req = POST →
  form req !! "item_name" = Some n →
  form req !! "description" = Some d →
  form req !! "status" = Some s →
  form req !! "address" = Some a →
  files req !! "proof" = Some f →
  filename f ≠ "" →
  App.allowed_file (filename f) = true →
  App.report secure_filename now req st =
  (inr (App.redirect "dashboard"),
   App.mkState
     (App.table st ++
        [App.new_ReportedItem n d s "Anonymous" (Some a) (Clock.strftime now)
           (secure_filename (filename f)) (next_id App.id (App.table st))])
     (<[Str.path_join App.UPLOAD_FOLDER (secure_filename (filename f)) := stream f]>
        (App.uploads st))).
Proof.
  intros Hm Hn Hd Hs Ha Hf Hname Hallowed.
  unfold App.report, bind, getitem. rewrite Hm, Hn, Hd, Hs, Ha, Hf. simpl.
  unfold file_truthy. rewrite bool_decide_eq_false_2 by done.
  by rewrite Hallowed.
Qed.

(** A POST whose upload is missing, unnamed or rejected keeps the state. *)
Lemma report_refused (req : request) (st : App.state) :
  method req = POST →
  (∀ f, files req !! "proof" = Some f →
        filename f = "" ∨ App.allowed_file (filename f) = false) →
  (App.report secure_filename now req st).2 = st.
Proof.
  intros Hm Hf. unfold App.report, bind, getitem. rewrite Hm.
  destruct (form req !! "item_name"); [|done].
  destruct (form req !! "description"); [|done].
  destruct (form req !! "status"); [|done].
  destruct (form req !! "address"); [|done].
  destruct (files req !! "proof") as [f|]; [|done]. simpl.
  destruct (Hf f eq_refl) as [Hname|Hrej].
  - unfold file_truthy. by rewrite bool_decide_eq_true_2.
  - rewrite Hrej. by rewrite andb_false_r.
Qed.

(** A POST that lacks a form field aborts with status 400 and keeps the
    state, whatever the upload is. *)
Lemma report_missing_field (req : request) (st : App.state) (key : string) :
  method req = POST →
  key ∈ ["item_name"; "description"; "status"; "address"] →
  form req !! key = None →
  ∃ key', App.report secure_filename now req st = (inl (BadRequest key'), st).
Proof.
  intros Hm Hkey Hnone. unfold App.report, bind, getitem. rewrite Hm.
  destruct (form req !! "item_name") eqn:?; [|by eexists].
  destruct (form req !! "description") eqn:?; [|by eexists].
  destruct (form req !! "status") eqn:?; [|by eexists].
  destruct (form req !! "address") eqn:?; [|by eexists].
  exfalso. repeat (apply elem_of_cons in Hkey as [->|Hkey]; [congruence|]).
  by apply elem_of_nil in Hkey.
Qed.

(** [report] either keeps the state or appends one row dated by the clock. *)
Lemma report_state (req : request) (st : App.state) :
  (App.report secure_filename now req st).2 = st ∨
  ∃ it, App.table (App.report secure_filename now req st).2 = App.table st ++ [it]
        ∧ App.date it = Clock.strftime now
        ∧ form req !! "status" = Some (App.status it)
        ∧ App.id it = next_id App.id (App.table st).
Proof.
  destruct (method req) eqn:Hm; [left; by rewrite report_GET|].
  destruct (files req !! "proof") as [f|] eqn:Hf;
    [|left; apply report_refused; [done|]; intros f; congruence].
  destruct (decide (filename f = "")) as [Hname|Hname];
    [left; apply report_refused; [done|]; intros f'; naive_solver|].
  destruct (App.allowed_file (filename f)) eqn:Hallowed;
    [|left; apply report_refused; [done|]; intros f'; naive_solver].
  destruct (form req !! "item_name") as [n|] eqn:Hn; last first.
  { left. edestruct (report_missing_field req st "item_name") as [k ->];
      [done|set_solver|done|done]. }
  destruct (form req !! "description") as [d|] eqn:Hd; last first.
  { left. edestruct (report_missing_field req st "description") as [k ->];
      [done|set_solver|done|done]. }
  destruct (form req !! "status") as [s|] eqn:Hs; last first.
  { left. edestruct (report_missing_field req st "status") as [k ->];
      [done|set_solver|done|done]. }
  destruct (form req !! "address") as [a|] eqn:Ha; last first.
  { left. edestruct (report_missing_field req st "address") as [k ->];
      [done|set_solver|done|done]. }
  right. rewrite (report_accepted req st n d s a f) by done. simpl.
  eexists. split; [done|]. by simpl.
Qed.

End AppReport.

(** ** [app.py]: rejected uploads *)

(** C1, as the specification states it, fails: a submission whose upload is
    named [photo.exe] gets the report form back and no item is created. *)
Lemma report_photo_exe_creates_no_item :
  App.report Sample.keep_name Sample.next_morning Sample.photo_exe Sample.app_init
  = (inr (App.render_template "report.html" None), Sample.app_init)
  ∧ ¬ ∃ it, it ∈ App.table
        (App.report Sample.keep_name Sample.next_morning Sample.photo_exe
           Sample.app_init).2.
Proof.
  assert (App.report Sample.keep_name Sample.next_morning Sample.photo_exe
            Sample.app_init
          = (inr (App.render_template "report.html" None), Sample.app_init)) as ->
    by (vm_compute; reflexivity).
  split; [done|]. intros [it Hit]. by apply elem_of_nil in Hit.
Qed.

(** C1, amended: a submission whose upload [allowed_file] rejects raises no
    error, gets the report form back, and creates no item: the table and the
    upload folder are as before. *)
Theorem report_rejected_upload_creates_no_item
    (secure_filename : string → string) (now : Clock.datetime)
    (req : request) (st : App.state) (n d s a : string) (f : FileStorage) :
  method req = POST →
  form req !! "item_name" = Some n →
  form req !! "description" = Some d →
  form req !! "status" = Some s →
  form req !! "address" = Some a →
  files req !! "proof" = Some f →
  App.allowed_file (filename f) = false →
  App.report secure_filename now req st
  = (inr (App.render_template "report.html" None), st).
Proof.
  intros Hm Hn Hd Hs Ha Hf Hrej.
  unfold App.report, bind, getitem. rewrite Hm, Hn, Hd, Hs, Ha, Hf. simpl.
  by rewrite Hrej, andb_false_r.
Qed.

Lemma report_rejected_upload_creates_no_item_witness :
  App.report Sample.keep_name Sample.next_morning Sample.photo_exe Sample.app_init
  = (inr (App.render_template "report.html" None), Sample.app_init).
Proof.
  apply (report_rejected_upload_creates_no_item Sample.keep_name Sample.next_morning
           Sample.photo_exe Sample.app_init "Wallet" "Black leather" "Found"
           "Building B" (mkFile "photo.exe" "image bytes"));
    vm_compute; reflexivity.
Defined.

(** C10: in [app.py], a POST whose upload is absent, unnamed, or rejected by
    [allowed_file] (as every name without a dot is) leaves the state as it
    was: no row is inserted and no file is saved. *)
Theorem report_without_accepted_upload_keeps_state
    (secure_filename : string → string) (now : Clock.datetime)
    (req : request) (st : App.state) :
  method req = POST →
  (∀ f, files req !! "proof" = Some f →
        filename f = "" ∨ App.allowed_file (filename f) = false
        ∨ Str.contains "." (filename f) = false) →
  (App.report secure_filename now req st).2 = st.
Proof.
  intros Hm Hf. apply report_refused; [done|].
  intros f Hfile. destruct (Hf f Hfile) as [?|[?|Hdot]]; auto.
  right. by apply allowed_file_no_dot.
Qed.

Lemma report_without_accepted_upload_keeps_state_witness :
  (App.report Sample.keep_name Sample.next_morning Sample.photo_no_dot
     Sample.app_init).2 = Sample.app_init
  ∧ (App.report Sample.keep_name Sample.next_morning Sample.no_upload
       Sample.app_init).2 = Sample.app_init
  ∧ (App.report Sample.keep_name Sample.next_morning Sample.no_file_chosen
       Sample.app_init).2 = Sample.app_init.
Proof.
  split; [|split].
  - apply report_without_accepted_upload_keeps_state; [reflexivity|].
    intros f Hf. vm_compute in Hf. injection Hf as <-. right; right. reflexivity.
  - apply report_without_accepted_upload_keeps_state; [reflexivity|].
    intros f Hf. vm_compute in Hf. discriminate.
  - apply report_without_accepted_upload_keeps_state; [reflexivity|].
    intros f Hf. vm_compute in Hf. injection Hf as <-. left. reflexivity.
Defined.

(** ** [search.py] and [safety.py]: what [report] and [update] do to the table *)

Section ItemsFacts.
Implicit Types (t : list Items.Item) (req : request) (item_id k : Z) (s : string).

Lemma overwrite_status_id item_id s r :
  Items.id (Items.overwrite_status item_id s r) = Items.id r.
Proof. unfold Items.overwrite_status. by case_decide. Qed.

Lemma query_get_overwrite_status item_id s k t :
  query_get Items.id k (Items.overwrite_status item_id s <$> t)
  = Items.overwrite_status item_id s <$> query_get Items.id k t.
Proof.
  induction t as [|r t IH]; simpl; [done|].
  rewrite overwrite_status_id. by case_decide.
Qed.

Lemma items_report_GET req t :
  method req = GET →
  Items.report req t = (inr (Items.render_template "report.html" Items.no_context), t).
Proof. unfold Items.report. by intros ->. Qed.

Lemma items_report_POST req t (n d b c p a : string) :
  method req = POST →
  form req !! "item_name" = Some n →
  form req !! "description" = Some d →
  form req !! "reported_by" = Some b →
  form req !! "contact_info" = Some c →
  form req !! "proof" = Some p →
  form req !! "address" = Some a →
  Items.report req t =
  (inr (Items.redirect "index"),
   t ++ [Items.new_Item n d b c None (Some p) (Some a) (next_id Items.id t)]).
Proof.
  intros Hm Hn Hd Hb Hc Hp Ha. unfold Items.report, bind, getitem.
  by rewrite Hm, Hn, Hd, Hb, Hc, Hp, Ha.
Qed.

(** [report] keeps the table or appends one row whose status is ["Lost"]. *)
Lemma items_report_state req t :
  (Items.report req t).2 = t ∨
  ∃ it, (Items.report req t).2 = t ++ [it] ∧ Items.status it = "Lost"
        ∧ Items.id it = next_id Items.id t.
Proof.
  unfold Items.report, bind, getitem. destruct (method req); [by left|].
  destruct (form req !! "item_name"); [|by left].
  destruct (form req !! "description"); [|by left].
  destruct (form req !! "reported_by"); [|by left].
  destruct (form req !! "contact_info"); [|by left].
  destruct (form req !! "proof"); [|by left].
  destruct (form req !! "address"); [|by left].
  right. by eexists.
Qed.

Lemma create_sample_data_state t :
  (Items.create_sample_data t).2 = t ∨
  ∃ it, (Items.create_sample_data t).2 = t ++ [it] ∧ Items.status it = "Lost"
        ∧ Items.id it = next_id Items.id t.
Proof.
  unfold Items.create_sample_data, bind. simpl.
  destruct (head t); [by left|]. right. by eexists.
Qed.

Lemma update_not_found item_id req t :
  query_get Items.id item_id t = None →
  Items.update item_id req t = (inl (Items.lookup_error item_id), t).
Proof.
  intros Hget. unfold Items.update, Items.get_or_404, bind. simpl. by rewrite Hget.
Qed.

Lemma update_GET item_id req t it :
  query_get Items.id item_id t = Some it →
  method req = GET →
  Items.update item_id req t =
  (inr (Items.render_template "update.html" (Items.item_context it)), t).
Proof.
  intros Hget Hm. unfold Items.update, Items.get_or_404, bind. simpl.
  by rewrite Hget, Hm.
Qed.

Lemma update_POST item_id req t it s :
  query_get Items.id item_id t = Some it →
  method req = POST →
  form req !! "status" = Some s →
  Items.update item_id req t =
  (inr (Items.redirect "index"), Items.overwrite_status item_id s <$> t).
Proof.
  intros Hget Hm Hs. unfold Items.update, Items.get_or_404, bind, getitem. simpl.
  rewrite Hget, Hm, Hs. simpl.
  by destruct (query_get_Some _ _ _ _ Hget) as [_ ->].
Qed.

Lemma update_POST_no_status item_id req t it :
  query_get Items.id item_id t = Some it →
  method req = POST →
  form req !! "status" = None →
  Items.update item_id req t = (inl (BadRequest "status"), t).
Proof.
  intros Hget Hm Hs. unfold Items.update, Items.get_or_404, bind, getitem. simpl.
  by rewrite Hget, Hm, Hs.
Qed.

(** [update] keeps the table or overwrites statuses with the posted one. *)
Lemma update_state item_id req t :
  (Items.update item_id req t).2 = t ∨
  ∃ s, form req !! "status" = Some s
       ∧ (Items.update item_id req t).2 = Items.overwrite_status item_id s <$> t.
Proof.
  destruct (query_get Items.id item_id t) as [it|] eqn:Hget;
    [|left; by rewrite update_not_found].
  destruct (method req) eqn:Hm; [left; by rewrite (update_GET _ _ _ it)|].
  destruct (form req !! "status") as [s|] eqn:Hs;
    [|left; by rewrite (update_POST_no_status _ _ _ it)].
  right. exists s. by rewrite (update_POST _ _ _ it s).
Qed.

End ItemsFacts.

(** ** Status updates *)

(** C4: for an existing id, [update] answers with the redirect and
    overwrites the status of the item with that id and nothing else: every
    other column of that item is as before, every other item is as before,
    and no row is added or removed. *)
Theorem update_overwrites_only_status
    (item_id : Z) (req : request) (t : list Items.Item) (it : Items.Item)
    (s : string) :
  query_get Items.id item_id t = Some it →
  method req = POST →
  form req !! "status" = Some s →
  (Items.update item_id req t).1 = inr (Items.redirect "index")
  ∧ (∃ it', query_get Items.id item_id (Items.update item_id req t).2 = Some it'
       ∧ Items.status it' = s
       ∧ Items.id it' = Items.id it
       ∧ Items.item_name it' = Items.item_name it
       ∧ Items.description it' = Items.description it
       ∧ Items.reported_by it' = Items.reported_by it
       ∧ Items.contact_info it' = Items.contact_info it
       ∧ Items.address it' = Items.address it
       ∧ Items.proof it' = Items.proof it)
  ∧ (∀ k, k ≠ item_id →
       query_get Items.id k (Items.update item_id req t).2 = query_get Items.id k t)
  ∧ (∀ (i : nat) r, t !! i = Some r → Items.id r ≠ item_id →
       (Items.update item_id req t).2 !! i = Some r)
  ∧ length (Items.update item_id req t).2 = length t.
Proof.
  intros Hget Hm Hs. rewrite (update_POST _ _ _ it s) by done. simpl.
  split; [done|]. split; [|split; [|split]].
  - exists (Items.set_status s it). rewrite query_get_overwrite_status, Hget. simpl.
    destruct (query_get_Some _ _ _ _ Hget) as [_ Hid].
    unfold Items.overwrite_status. by rewrite decide_True.
  - intros k Hk. rewrite query_get_overwrite_status.
    destruct (query_get Items.id k t) as [r|] eqn:Hr; [|done]. simpl.
    destruct (query_get_Some _ _ _ _ Hr) as [_ Hid].
    unfold Items.overwrite_status. rewrite decide_False; [done|congruence].
  - intros i r Hi Hr. rewrite list_lookup_fmap, Hi. simpl.
    unfold Items.overwrite_status. by rewrite decide_False.
  - by rewrite length_fmap.
Qed.

Lemma update_overwrites_only_status_witness :
  (Items.update 1 (Sample.set_to "Found") Sample.seeded).2
  = [Items.set_status "Found" Sample.lost_wallet]
  ∧ (Items.update 1 (Sample.set_to "Found") Sample.seeded).1
    = inr (Items.redirect "index").
Proof.
  split; [reflexivity|].
  apply (update_overwrites_only_status 1 (Sample.set_to "Found") Sample.seeded
           Sample.lost_wallet "Found"); reflexivity.
Defined.

(** On a table SQLite can hold, an id outside its integers finds no row,
    so [update] ends in status 500 whatever the table and the request. *)
Lemma update_id_beyond_int64 (item_id : Z) (req : request) (t : list Items.Item) :
  Forall (λ r, is_int64 (Items.id r)) t →
  ¬ is_int64 item_id →
  Items.update item_id req t = (inl InternalServerError, t).
Proof.
  intros Hkeys Hid.
  assert (query_get Items.id item_id t = None) as Hget.
  { apply query_get_None. rewrite Forall_forall in Hkeys.
    intros r Hr Heq. apply Hid. rewrite <- Heq. by apply Hkeys. }
  rewrite (update_not_found _ _ _ Hget). unfold Items.lookup_error.
  by rewrite decide_False.
Qed.




(** C5, as the specification states it, fails: posting the status
    ["Stolen"] for the seeded item raises nothing and the record is changed. *)
Lemma update_stolen_is_stored :
  Items.update 1 (Sample.set_to "Stolen") Sample.seeded
  = (inr (Items.redirect "index"), [Items.set_status "Stolen" Sample.lost_wallet])
  ∧ "Stolen" ∉ statuses.
Proof. split; [reflexivity|]. apply (bool_decide_unpack _). vm_compute. exact I. Qed.

(** C5, amended: for an existing id, [update] with a status outside the two
    enumerated values raises no error: it answers with the redirect and the
    item with that id carries the posted status afterwards. *)
Theorem update_stores_status_outside_enum
    (item_id : Z) (req : request) (t : list Items.Item) (it : Items.Item)
    (s : string) :
  query_get Items.id item_id t = Some it →
  method req = POST →
  form req !! "status" = Some s →
  s ∉ statuses →
  (Items.update item_id req t).1 = inr (Items.redirect "index")
  ∧ query_get Items.id item_id (Items.update item_id req t).2
    = Some (Items.set_status s it).
Proof.
  intros Hget Hm Hs _. rewrite (update_POST _ _ _ it s) by done. simpl.
  split; [done|]. rewrite query_get_overwrite_status, Hget. simpl.
  destruct (query_get_Some _ _ _ _ Hget) as [_ Hid].
  unfold Items.overwrite_status. by rewrite decide_True.
Qed.

Lemma update_stores_status_outside_enum_witness :
  query_get Items.id 1 (Items.update 1 (Sample.set_to "Stolen") Sample.seeded).2
  = Some (Items.set_status "Stolen" Sample.lost_wallet).
Proof.
  apply (update_stores_status_outside_enum 1 (Sample.set_to "Stolen") Sample.seeded
           Sample.lost_wallet "Stolen"); try reflexivity.
  apply (bool_decide_unpack _). vm_compute. exact I.
Defined.

(** ** The statuses a table can hold *)

Section StatusInvariant.
Implicit Types (t : list Items.Item) (r : Items.Item).

Lemma overwrite_status_in_enum (item_id : Z) (s : string) (r : Items.Item) :
  s ∈ statuses → Items.in_enum r → Items.in_enum (Items.overwrite_status item_id s r).
Proof. unfold Items.overwrite_status. by case_decide. Qed.

Lemma run_op_in_enum (o : Items.op) (t : list Items.Item) :
  Items.op_in_enum o → Forall Items.in_enum t → Forall Items.in_enum (Items.run_op o t).
Proof.
  intros Ho Ht. destruct o as [|req|item_id req|]; simpl.
  - done.
  - destruct (items_report_state req t) as [->|(it & -> & Hit & _)]; [done|].
    apply Forall_app. split; [done|]. apply Forall_singleton.
    unfold Items.in_enum, statuses. rewrite Hit. set_solver.
  - destruct (update_state item_id req t) as [->|(s & Hs & ->)]; [done|].
    apply Forall_fmap. eapply Forall_impl; [exact Ht|].
    intros r Hr. simpl. apply overwrite_status_in_enum; [|done].
    simpl in Ho. by rewrite Hs in Ho.
  - destruct (create_sample_data_state t) as [->|(it & -> & Hit & _)]; [done|].
    apply Forall_app. split; [done|]. apply Forall_singleton.
    unfold Items.in_enum, statuses. rewrite Hit. set_solver.
Qed.

Lemma foldl_run_op_in_enum (ops : list Items.op) (t : list Items.Item) :
  Forall Items.op_in_enum ops → Forall Items.in_enum t →
  Forall Items.in_enum (foldl (λ t o, Items.run_op o t) t ops).
Proof.
  revert t. induction ops as [|o ops IH]; intros t Hops Ht; simpl; [done|].
  apply Forall_cons in Hops as [Ho Hops].
  apply IH; [done|]. by apply run_op_in_enum.
Qed.

End StatusInvariant.

(** C7, as the specification states it, fails: after the sample item is
    seeded and the status ["Stolen"] is posted for it, the table holds a
    status outside the enumeration and the two counts add up to 0, not 1. *)
Lemma stolen_status_is_reachable :
  Items.run_ops Sample.stolen_run = [Items.set_status "Stolen" Sample.lost_wallet]
  ∧ ¬ Forall Items.in_enum (Items.run_ops Sample.stolen_run)
  ∧ count_by_status Items.status "Lost" (Items.run_ops Sample.stolen_run)
    + count_by_status Items.status "Found" (Items.run_ops Sample.stolen_run)
    ≠ length (Items.run_ops Sample.stolen_run).
Proof.
  assert (Items.run_ops Sample.stolen_run
          = [Items.set_status "Stolen" Sample.lost_wallet]) as -> by reflexivity.
  split; [done|]. split.
  - intros [Hin _]%Forall_cons. revert Hin. apply (bool_decide_unpack _).
    vm_compute. exact I.
  - vm_compute. lia.
Qed.

(** C7, amended: in every table reached from the empty one by requests that
    post no status outside Lost and Found, every item's status is Lost or
    Found, and the rows counted under Lost and under Found add up to the
    length of the table. *)
Theorem statuses_in_enum_while_posted_in_enum (ops : list Items.op) :
  Forall Items.op_in_enum ops →
  Forall Items.in_enum (Items.run_ops ops)
  ∧ count_by_status Items.status "Lost" (Items.run_ops ops)
    + count_by_status Items.status "Found" (Items.run_ops ops)
    = length (Items.run_ops ops).
Proof.
  intros Hops.
  assert (Forall Items.in_enum (Items.run_ops ops)) as Hall.
  { unfold Items.run_ops. by apply foldl_run_op_in_enum. }
  split; [done|]. by apply count_lost_found_eq.
Qed.

Lemma statuses_in_enum_while_posted_in_enum_witness :
  Forall Items.in_enum (Items.run_ops Sample.found_run)
  ∧ count_by_status Items.status "Lost" (Items.run_ops Sample.found_run)
    + count_by_status Items.status "Found" (Items.run_ops Sample.found_run)
    = length (Items.run_ops Sample.found_run).
Proof.
  apply statuses_in_enum_while_posted_in_enum.
  apply (bool_decide_unpack _). vm_compute. exact I.
Defined.

(** ** The status and the name of a new item *)

(** C2, as the specification states it, fails in both variants: [app.py]
    refuses a submission that omits the status (status 400, nothing stored),
    and [search.py] / [safety.py] store ["Lost"] for a submission whose form
    says ["Found"]. *)
Lemma report_status_not_as_submitted :
  form Sample.no_status !! "status" = None
  ∧ App.report Sample.keep_name Sample.next_morning Sample.no_status Sample.app_init
    = (inl (BadRequest "status"), Sample.app_init)
  ∧ form Sample.found_wallet !! "status" = Some "Found"
  ∧ Items.report Sample.found_wallet []
    = (inr (Items.redirect "index"),
       [Items.mkItem 1 "Wallet" "Black leather" "Jane" "jane@example.com" "Lost"
          (Some "receipt") (Some "Building B")]).
Proof. repeat split; vm_compute; reflexivity. Qed.

(** C2, amended: in [app.py] an accepted submission is answered with the
    redirect and its item, found under the new key, carries the submitted
    status, while a submission without a status is refused with status 400
    and stores nothing; in [search.py] and [safety.py] a submission is
    answered with the redirect and its item, found under the new key, has
    status ["Lost"], whatever the form holds. *)
Theorem report_status_of_new_item :
  (∀ (secure_filename : string → string) (now : Clock.datetime) (req : request)
     (st : App.state) (n d s a : string) (f : FileStorage),
     method req = POST →
     form req !! "item_name" = Some n →
     form req !! "description" = Some d →
     form req !! "status" = Some s →
     form req !! "address" = Some a →
     files req !! "proof" = Some f →
     filename f ≠ "" →
     App.allowed_file (filename f) = true →
     (App.report secure_filename now req st).1 = inr (App.redirect "dashboard")
     ∧ ∃ it, query_get App.id (next_id App.id (App.table st))
               (App.table (App.report secure_filename now req st).2) = Some it
             ∧ App.status it = s)
  ∧ (∀ (secure_filename : string → string) (now : Clock.datetime) (req : request)
       (st : App.state) (n d : string),
       method req = POST →
       form req !! "item_name" = Some n →
       form req !! "description" = Some d →
       form req !! "status" = None →
       App.report secure_filename now req st = (inl (BadRequest "status"), st))
  ∧ (∀ (req : request) (t : list Items.Item) (n d b c p a : string),
       method req = POST →
       form req !! "item_name" = Some n →
       form req !! "description" = Some d →
       form req !! "reported_by" = Some b →
       form req !! "contact_info" = Some c →
       form req !! "proof" = Some p →
       form req !! "address" = Some a →
       (Items.report req t).1 = inr (Items.redirect "index")
       ∧ ∃ it, query_get Items.id (next_id Items.id t) (Items.report req t).2 = Some it
               ∧ Items.status it = "Lost").
Proof.
  split; [|split].
  - intros sf now req st n d s a f Hm Hn Hd Hs Ha Hf Hname Hallowed.
    rewrite (report_accepted sf now req st n d s a f) by done. simpl.
    split; [done|]. eexists. split; [by apply query_get_inserted|done].
  - intros sf now req st n d Hm Hn Hd Hs.
    unfold App.report, bind, getitem. by rewrite Hm, Hn, Hd, Hs.
  - intros req t n d b c p a Hm Hn Hd Hb Hc Hp Ha.
    rewrite (items_report_POST req t n d b c p a) by done. simpl.
    split; [done|]. eexists. split; [by apply query_get_inserted|done].
Qed.

Lemma report_status_of_new_item_witness :
  (∃ it, query_get App.id 1
           (App.table (App.report Sample.keep_name Sample.next_morning
                         Sample.photo_jpg Sample.app_init).2) = Some it
         ∧ App.status it = "Found")
  ∧ App.report Sample.keep_name Sample.next_morning Sample.no_status Sample.app_init
    = (inl (BadRequest "status"), Sample.app_init)
  ∧ (∃ it, query_get Items.id 1 (Items.report Sample.found_wallet []).2 = Some it
           ∧ Items.status it = "Lost").
Proof.
  destruct report_status_of_new_item as (Happ & Hmissing & Hitems).
  split; [|split].
  - apply (Happ Sample.keep_name Sample.next_morning Sample.photo_jpg Sample.app_init
             "Wallet" "Black leather" "Found" "Building B"
             (mkFile "photo.jpg" "image bytes")); try reflexivity.
    intros Hname. discriminate Hname.
  - apply (Hmissing Sample.keep_name Sample.next_morning Sample.no_status
             Sample.app_init "Wallet" "Black leather"); reflexivity.
  - apply (Hitems Sample.found_wallet [] "Wallet" "Black leather" "Jane"
             "jane@example.com" "receipt" "Building B"); reflexivity.
Defined.

(** C3, as the specification states it, fails in both variants: a
    submission whose [item_name] is empty is answered with the redirect and
    its record is stored. *)
Lemma report_empty_item_name_is_stored :
  form Sample.empty_item_name !! "item_name" = Some ""
  ∧ Items.report Sample.empty_item_name []
    = (inr (Items.redirect "index"),
       [Items.mkItem 1 "" "Black leather" "Jane" "jane@example.com" "Lost"
          (Some "receipt") (Some "Building B")])
  ∧ (App.report Sample.keep_name Sample.next_morning Sample.empty_item_name
       Sample.app_init).1 = inr (App.redirect "dashboard")
  ∧ App.table (App.report Sample.keep_name Sample.next_morning
                 Sample.empty_item_name Sample.app_init).2
    = [App.mkReportedItem 1 "" "Black leather" "Found" "Anonymous"
         (Some "Building B") "2024-11-03 09:30:00" "photo.jpg"].
Proof. repeat split; vm_compute; reflexivity. Qed.

(** C3, amended: a submission whose [item_name] is the empty string is
    accepted like any other and its record is stored with the empty name;
    what fails, with status 400 and no record added, is a submission that
    lacks the [item_name] field. *)
Theorem report_item_name_empty_or_missing :
  (∀ (req : request) (t : list Items.Item) (d b c p a : string),
     method req = POST →
     form req !! "item_name" = Some "" →
     form req !! "description" = Some d →
     form req !! "reported_by" = Some b →
     form req !! "contact_info" = Some c →
     form req !! "proof" = Some p →
     form req !! "address" = Some a →
     ∃ it, Items.report req t = (inr (Items.redirect "index"), t ++ [it])
           ∧ Items.item_name it = "")
  ∧ (∀ (secure_filename : string → string) (now : Clock.datetime) (req : request)
       (st : App.state) (d s a : string) (f : FileStorage),
       method req = POST →
       form req !! "item_name" = Some "" →
       form req !! "description" = Some d →
       form req !! "status" = Some s →
       form req !! "address" = Some a →
       files req !! "proof" = Some f →
       filename f ≠ "" →
       App.allowed_file (filename f) = true →
       ∃ it, (App.report secure_filename now req st).1 = inr (App.redirect "dashboard")
             ∧ App.table (App.report secure_filename now req st).2
               = App.table st ++ [it]
             ∧ App.item_name it = "")
  ∧ (∀ (req : request) (t : list Items.Item),
       method req = POST →
       form req !! "item_name" = None →
       Items.report req t = (inl (BadRequest "item_name"), t))
  ∧ (∀ (secure_filename : string → string) (now : Clock.datetime) (req : request)
       (st : App.state),
       method req = POST →
       form req !! "item_name" = None →
       App.report secure_filename now req st = (inl (BadRequest "item_name"), st)).
Proof.
  split; [|split; [|split]].
  - intros req t d b c p a Hm Hn Hd Hb Hc Hp Ha.
    rewrite (items_report_POST req t "" d b c p a) by done. by eexists.
  - intros sf now req st d s a f Hm Hn Hd Hs Ha Hf Hname Hallowed.
    rewrite (report_accepted sf now req st "" d s a f) by done. by eexists.
  - intros req t Hm Hn. unfold Items.report, bind, getitem. by rewrite Hm, Hn.
  - intros sf now req st Hm Hn. unfold App.report, bind, getitem. by rewrite Hm, Hn.
Qed.

Lemma report_item_name_empty_or_missing_witness :
  (∃ it, Items.report Sample.empty_item_name []
         = (inr (Items.redirect "index"), [] ++ [it])
         ∧ Items.item_name it = "")
  ∧ Items.report Sample.no_item_name Sample.seeded
    = (inl (BadRequest "item_name"), Sample.seeded)
  ∧ App.report Sample.keep_name Sample.next_morning Sample.no_item_name
      Sample.app_init = (inl (BadRequest "item_name"), Sample.app_init).
Proof.
  destruct report_item_name_empty_or_missing as (Hitems & Happ & Hitems0 & Happ0).
  split; [|split].
  - apply (Hitems Sample.empty_item_name [] "Black leather" "Jane"
             "jane@example.com" "receipt" "Building B"); reflexivity.
  - apply Hitems0; reflexivity.
  - apply Happ0; reflexivity.
Defined.

(** ** The dashboard *)

#[local] Instance date_desc_transitive : Transitive App.date_desc.
Proof. intros x y z Hxy Hyz. unfold App.date_desc in *. by etrans. Qed.

#[local] Instance date_desc_total : Total App.date_desc.
Proof. intros x y. unfold App.date_desc. apply (total String.le). Qed.

Lemma order_by_date_desc_sorted (t : list App.ReportedItem) :
  StronglySorted App.date_desc (App.order_by_date_desc t).
Proof. apply (StronglySorted_merge_sort _). Qed.

Lemma order_by_date_desc_rows (t : list App.ReportedItem) :
  App.order_by_date_desc t ≡ₚ t.
Proof. apply merge_sort_Permutation. Qed.

Lemma date_before_inj (t : list App.ReportedItem) (x y : App.ReportedItem) :
  StronglySorted App.date_before t → x ∈ t → y ∈ t → App.date x = App.date y → x = y.
Proof.
  induction 1 as [|r t Hsorted IH Hr]; intros Hx Hy Hdate.
  - by apply elem_of_nil in Hx.
  - rewrite Forall_forall in Hr.
    apply elem_of_cons in Hx as [->|Hx], Hy as [->|Hy]; auto.
    + destruct (Hr y Hy) as [_ Hne]. done.
    + destruct (Hr x Hx) as [_ Hne]. done.
Qed.

Lemma reverse_sorted_date_desc (t : list App.ReportedItem) :
  StronglySorted App.date_before t → StronglySorted App.date_desc (reverse t).
Proof.
  intros Hsorted. apply (Sorted_StronglySorted _).
  apply (Sorted_reverse (λ x y, (App.date x ≤ App.date y)%string)).
  apply StronglySorted_Sorted.
  eapply StronglySorted_fmap with (f := id) in Hsorted.
  - by rewrite list_fmap_id in Hsorted.
  - by intros x y [Hle _].
Qed.

(** With dates that strictly increase in creation order, the query returns
    the table latest row first. *)
Lemma order_by_date_desc_increasing (t : list App.ReportedItem) :
  StronglySorted App.date_before t → App.order_by_date_desc t = reverse t.
Proof.
  intros Hstrict. apply (StronglySorted_unique_strong App.date_desc).
  - intros x y Hx Hy Hxy Hyx. apply (date_before_inj t); [done| | |].
    + by rewrite <- (order_by_date_desc_rows t).
    + by rewrite <- (reverse_Permutation t).
    + by apply (anti_symm String.le).
  - apply order_by_date_desc_sorted.
  - by apply reverse_sorted_date_desc.
  - by rewrite order_by_date_desc_rows, reverse_Permutation.
Qed.

(** C8, as the specification states it, fails: of six reports, the sixth
    submitted just after the local clock was set back an hour, the dashboard
    shows the first five and leaves out the one created last. *)
Lemma newest_report_left_out_of_recent_activity :
  App.id <$> App.table (App.run_ops Sample.keep_name Cases.set_back_six)
  = [1; 2; 3; 4; 5; 6]%Z
  ∧ App.date <$> App.table (App.run_ops Sample.keep_name Cases.set_back_six)
    = ["2024-11-03 01:55:00"; "2024-11-03 01:56:00"; "2024-11-03 01:57:00";
       "2024-11-03 01:58:00"; "2024-11-03 01:59:00"; "2024-11-03 01:00:00"]
  ∧ ∃ data,
      (App.dashboard (App.run_ops Sample.keep_name Cases.set_back_six)).1
      = inr (App.render_template "dashboard.html" (Some data))
      ∧ App.id <$> App.recent_activity data = [5; 4; 3; 2; 1]%Z.
Proof.
  split; [vm_compute; reflexivity|]. split; [vm_compute; reflexivity|].
  eexists. split; [reflexivity|]. vm_compute. reflexivity.
Qed.

(** C8, amended: [dashboard] renders its template over the number of rows
    whose status is Lost, the number of rows whose status is Found, and a
    list [recent_activity] that holds min(5, number of rows) rows of the
    table, in descending order of date, none of them with a smaller date
    than a row left out; when the dates strictly increase in creation order
    these are the last five rows created, the latest first.  The state is
    not touched. *)
Theorem dashboard_summary (st : App.state) :
  ∃ data,
    App.dashboard st = (inr (App.render_template "dashboard.html" (Some data)), st)
    ∧ App.total_lost data
      = length (filter (λ r, App.status r = "Lost") (App.table st))
    ∧ App.total_found data
      = length (filter (λ r, App.status r = "Found") (App.table st))
    ∧ length (App.recent_activity data) = min 5 (length (App.table st))
    ∧ StronglySorted (λ x y, (App.date y ≤ App.date x)%string)
        (App.recent_activity data)
    ∧ (∃ left_out,
         App.recent_activity data ++ left_out ≡ₚ App.table st
         ∧ ∀ x y, x ∈ App.recent_activity data → y ∈ left_out →
                  (App.date y ≤ App.date x)%string)
    ∧ (StronglySorted App.date_before (App.table st) →
       App.recent_activity data = take 5 (reverse (App.table st))).
Proof.
  eexists. split; [reflexivity|]. simpl.
  pose proof (order_by_date_desc_sorted (App.table st)) as Hsorted.
  pose proof (order_by_date_desc_rows (App.table st)) as Hrows.
  rewrite <- (take_drop 5 (App.order_by_date_desc (App.table st))) in Hsorted.
  apply StronglySorted_app in Hsorted as (Hcut & Htake & _).
  split; [done|]. split; [done|]. split; [|split; [|split]].
  - by rewrite length_take, Hrows.
  - exact Htake.
  - exists (drop 5 (App.order_by_date_desc (App.table st))).
    split; [by rewrite take_drop|]. intros x y Hx Hy. by apply Hcut.
  - intros Hstrict. by rewrite order_by_date_desc_increasing.
Qed.

Lemma dashboard_summary_witness :
  ∃ data,
    App.dashboard (App.run_ops Sample.keep_name Sample.week_run)
    = (inr (App.render_template "dashboard.html" (Some data)),
       App.run_ops Sample.keep_name Sample.week_run)
    ∧ App.total_lost data = 0
    ∧ App.total_found data = 6
    ∧ App.id <$> App.recent_activity data = [6; 5; 4; 3; 2]%Z.
Proof.
  destruct (dashboard_summary (App.run_ops Sample.keep_name Sample.week_run))
    as (data & Hrun & Hlost & Hfound & _ & _ & _ & Hlatest).
  exists data. split; [exact Hrun|]. split; [by rewrite Hlost|].
  split; [by rewrite Hfound|]. rewrite Hlatest; [reflexivity|].
  apply (bool_decide_unpack _). vm_compute. exact I.
Defined.

(** ** Dates *)

Section ClockFacts.

Lemma digit_code (n : N) : (n < 10)%N → N_of_ascii (Clock.digit n) = (48 + n)%N.
Proof. intros Hn. unfold Clock.digit. apply N_ascii_embedding. lia. Qed.

Lemma digit_compare (a b : N) :
  (a < 10)%N → (b < 10)%N →
  Ascii.compare (Clock.digit a) (Clock.digit b) = (a ?= b)%N.
Proof.
  intros Ha Hb. unfold Ascii.compare. rewrite !digit_code by done.
  destruct (N.compare_spec a b) as [->|Hlt|Hgt].
  - apply N.compare_refl.
  - apply N.compare_lt_iff. lia.
  - apply N.compare_gt_iff. lia.
Qed.

Lemma compare_app_same (p s1 s2 : string) :
  String.compare (p +:+ s1) (p +:+ s2) = String.compare s1 s2.
Proof.
  induction p as [|c p IH]; simpl; [done|].
  unfold Ascii.compare. by rewrite N.compare_refl.
Qed.

Lemma compare_app_lt (p1 p2 s1 s2 : string) :
  String.length p1 = String.length p2 →
  String.compare p1 p2 = Lt →
  String.compare (p1 +:+ s1) (p2 +:+ s2) = Lt.
Proof.
  revert p2. induction p1 as [|c1 p1 IH]; intros [|c2 p2]; simpl; try done.
  intros [= Hlen]. destruct (Ascii.compare c1 c2); [by apply IH|done|done].
Qed.

Lemma pad2_lt (n m : N) :
  (n < m)%N → (m < 100)%N → String.compare (Clock.pad2 n) (Clock.pad2 m) = Lt.
Proof.
  intros Hnm Hm. unfold Clock.pad2. simpl.
  rewrite !digit_compare by div_lia.
  destruct (N.compare_spec (n / 10) (m / 10)) as [Heq|Hlt|Hgt]; [|done|div_lia].
  assert (n mod 10 < m mod 10)%N as Hmod by div_lia.
  apply N.compare_lt_iff in Hmod. by rewrite Hmod.
Qed.

Lemma pad4_lt (n m : N) :
  (n < m)%N → (m < 10000)%N → String.compare (Clock.pad4 n) (Clock.pad4 m) = Lt.
Proof.
  intros Hnm Hm. unfold Clock.pad4.
  destruct (N.compare_spec (n / 100) (m / 100)) as [Heq|Hlt|Hgt]; [| |div_lia].
  - rewrite Heq, compare_app_same. apply pad2_lt; div_lia.
  - apply compare_app_lt; [done|]. apply pad2_lt; div_lia.
Qed.

Lemma le_of_compare_lt (s1 s2 : string) : String.compare s1 s2 = Lt → (s1 ≤ s2)%string.
Proof. unfold String.le, String.leb. by intros ->. Qed.

(** One field decides: the fields before it agree, this one is smaller. *)
Ltac field_decides lt_lemma :=
  apply le_of_compare_lt; rewrite ?compare_app_same;
  first [apply compare_app_lt; [done|apply lt_lemma; lia] | apply lt_lemma; lia].

(** The format orders valid readings as the calendar does. *)
Lemma strftime_mono (d1 d2 : Clock.datetime) :
  Clock.valid d1 → Clock.valid d2 → Clock.le d1 d2 →
  (Clock.strftime d1 ≤ Clock.strftime d2)%string.
Proof.
  destruct d1 as [Y1 m1 D1 h1 M1 s1], d2 as [Y2 m2 D2 h2 M2 s2].
  unfold Clock.valid, Clock.le, Clock.strftime. simpl.
  intros Hv1 Hv2 Hle.
  destruct Hle as [Hlt|[<- Hle]]; [field_decides pad4_lt|].
  do 4 (destruct Hle as [Hlt|[<- Hle]]; [field_decides pad2_lt|]).
  destruct Hle as [Hlt|[<- _]]; [field_decides pad2_lt|done].
Qed.

End ClockFacts.



Section AppDates.
Variable secure_filename : string → string.


Lemma app_run_ops_snoc (ops : list App.op) (o : App.op) :
  App.run_ops secure_filename (ops ++ [o])
  = App.run_op secure_filename o (App.run_ops secure_filename ops).
Proof. unfold App.run_ops. by rewrite foldl_snoc. Qed.



End AppDates.




(** ** Invariants of the tables *)

Section AppInvariants.
Variable secure_filename : string → string.

Lemma app_run_op_in_enum (o : App.op) (st : App.state) :
  App.op_in_enum o →
  Forall (λ r, App.status r ∈ statuses) (App.table st) →
  Forall (λ r, App.status r ∈ statuses) (App.table (App.run_op secure_filename o st)).
Proof.
  intros Ho Hst. destruct o as [| |now req|name]; simpl; try done.
  destruct (report_state secure_filename now req st)
    as [->|(it & -> & _ & Hstatus & _)]; [done|].
  apply Forall_app. split; [done|]. apply Forall_singleton.
  simpl in Ho. by rewrite Hstatus in Ho.
Qed.

(** The [app.py] side of C7: while no report posts a status outside the
    enumeration, the two counts of the dashboard cover the table. *)
Lemma app_statuses_in_enum (ops : list App.op) :
  Forall App.op_in_enum ops →
  Forall (λ r, App.status r ∈ statuses) (App.table (App.run_ops secure_filename ops))
  ∧ count_by_status App.status "Lost" (App.table (App.run_ops secure_filename ops))
    + count_by_status App.status "Found" (App.table (App.run_ops secure_filename ops))
    = length (App.table (App.run_ops secure_filename ops)).
Proof.
  intros Hops.
  assert (Forall (λ r, App.status r ∈ statuses)
            (App.table (App.run_ops secure_filename ops))) as Hall.
  { induction ops as [|o ops IH] using rev_ind; [constructor|].
    apply Forall_app in Hops as [Hops Ho]. rewrite Forall_singleton in Ho.
    rewrite app_run_ops_snoc. apply app_run_op_in_enum; auto. }
  split; [done|]. by apply count_lost_found_eq.
Qed.

End AppInvariants.

(** Primary keys stay distinct, so [query_get] finds the one row of a key. *)
Lemma items_keys_distinct (ops : list Items.op) :
  NoDup (Items.id <$> Items.run_ops ops).
Proof.
  unfold Items.run_ops.
  induction ops as [|o ops IH] using rev_ind; [constructor|].
  rewrite foldl_snoc. set (t := foldl (λ t o, Items.run_op o t) [] ops) in *.
  assert (∀ it, Items.id it = next_id Items.id t → NoDup (Items.id <$> t ++ [it]))
    as Hfresh.
  { intros it Hit. rewrite fmap_app. apply NoDup_app. split; [done|]. split.
    - intros k (r & -> & Hr)%list_elem_of_fmap [Hk|Hk]%elem_of_cons.
      + pose proof (next_id_above Items.id t r Hr). simpl in Hk. lia.
      + by apply elem_of_nil in Hk.
    - apply NoDup_singleton. }
  destruct o as [|req|item_id req|]; simpl.
  - done.
  - destruct (items_report_state req t) as [->|(it & -> & _ & Hit)]; auto.
  - destruct (update_state item_id req t) as [->|(s & _ & ->)]; [done|].
    rewrite <- list_fmap_compose.
    rewrite (list_fmap_ext _ Items.id t); [exact IH|].
    intros i r _. apply overwrite_status_id.
  - destruct (create_sample_data_state t) as [->|(it & -> & _ & Hit)]; auto.
Qed.

(** * Further properties of the handlers *)

(** ** More on file names *)

Lemma contains_app (c : ascii) (s1 s2 : string) :
  Str.contains c (s1 +:+ s2) = Str.contains c s1 || Str.contains c s2.
Proof.
  induction s1 as [|a s1 IH]; simpl; [done|]. by destruct (Ascii.eqb a c).
Qed.

(** Joining two pieces around a separator and splitting at the last
    separator gives the pieces back, when the second holds none. *)
Lemma rsplit1_join (sep : ascii) (h t : string) :
  Str.contains sep t = false → Str.rsplit1 sep (h +:+ String sep t) = [h; t].
Proof.
  intros Ht. induction h as [|a h IH]; simpl.
  - rewrite (rsplit1_no_sep _ _ Ht). by rewrite Ascii.eqb_refl.
  - change (String.append h (String sep t)) with (h +:+ String sep t).
    by rewrite IH.
Qed.

(** Splitting at the last separator and joining gives the string back. *)
Lemma rsplit1_split (sep : ascii) (s h t : string) :
  Str.rsplit1 sep s = [h; t] → s = h +:+ String sep t ∧ Str.contains sep t = false.
Proof.
  revert h t. induction s as [|a s IH]; intros h t; simpl; [done|].
  destruct (Str.contains sep s) eqn:Hs.
  - destruct (rsplit1_second _ _ Hs) as (h' & t' & Hsplit). rewrite Hsplit.
    intros [= <- <-]. destruct (IH _ _ Hsplit) as [-> Ht].
    split; [done|]. by destruct (Ascii.eqb a sep).
  - rewrite (rsplit1_no_sep _ _ Hs).
    destruct (Ascii.eqb_spec a sep) as [->|Hne]; [|done].
    by intros [= <- <-].
Qed.

Lemma lower_char_idemp (c : ascii) : Str.lower_char (Str.lower_char c) = Str.lower_char c.
Proof.
  unfold Str.lower_char.
  destruct ((65 <=? N_of_ascii c)%N && (N_of_ascii c <=? 90)%N) eqn:Hup; simpl.
  - apply andb_true_iff in Hup as [Hlo%N.leb_le Hhi%N.leb_le].
    rewrite N_ascii_embedding by lia.
    assert ((65 <=? N_of_ascii c + 32)%N && (N_of_ascii c + 32 <=? 90)%N = false)
      as -> ; [|done].
    apply andb_false_iff. right. apply N.leb_gt. lia.
  - by rewrite Hup.
Qed.

Lemma lower_idemp (s : string) : Str.lower (Str.lower s) = Str.lower s.
Proof. induction s as [|a s IH]; simpl; [done|]. by rewrite lower_char_idemp, IH. Qed.

Lemma lower_char_dot (c : ascii) :
  Ascii.eqb (Str.lower_char c) "." = Ascii.eqb c ".".
Proof.
  unfold Str.lower_char.
  destruct ((65 <=? N_of_ascii c)%N && (N_of_ascii c <=? 90)%N) eqn:Hup; [|done].
  apply andb_true_iff in Hup as [Hlo%N.leb_le Hhi%N.leb_le].
  assert (Ascii.eqb c "." = false) as ->.
  { apply Ascii.eqb_neq. intros ->. vm_compute in Hlo. done. }
  apply Ascii.eqb_neq. intros Heq.
  apply (f_equal N_of_ascii) in Heq. rewrite N_ascii_embedding in Heq by lia.
  vm_compute (N_of_ascii ".") in Heq. lia.
Qed.

Lemma contains_dot_lower (s : string) :
  Str.contains "." (Str.lower s) = Str.contains "." s.
Proof.
  induction s as [|a s IH]; simpl; [done|]. by rewrite lower_char_dot, IH.
Qed.

(** X1: [allowed_file] accepts exactly the names that end in a dot followed
    by a dot-free extension whose lower-case form is in the whitelist; what
    stands before the last dot plays no part. *)
Theorem allowed_file_iff_last_extension (filename : string) :
  App.allowed_file filename = true ↔
  ∃ stem ext,
    filename = stem +:+ String "." ext
    ∧ Str.contains "." ext = false
    ∧ Str.lower ext ∈ App.ALLOWED_EXTENSIONS.
Proof.
  rewrite allowed_file_extension. split.
  - intros (h & ext & Hsplit & Hext).
    destruct (rsplit1_split _ _ _ _ Hsplit) as [-> Hdot]. by exists h, ext.
  - intros (stem & ext & -> & Hdot & Hext). exists stem, ext.
    by rewrite rsplit1_join.
Qed.

(** X2: an accepted name is never empty, so in [report] the test
    [file and allowed_file(file.filename)] is decided by [allowed_file]
    alone. *)
Theorem upload_guard_is_allowed_file (f : FileStorage) :
  file_truthy f && App.allowed_file (filename f) = App.allowed_file (filename f).
Proof.
  unfold file_truthy. case_bool_decide as Hname; [|done].
  rewrite Hname. reflexivity.
Qed.

(** X3: the case of the extension does not matter: a name and the same name
    with its extension in lower case are accepted or rejected together. *)
Theorem allowed_file_extension_case (stem ext : string) :
  Str.contains "." ext = false →
  App.allowed_file (stem +:+ String "." ext)
  = App.allowed_file (stem +:+ String "." (Str.lower ext)).
Proof.
  intros Hdot. unfold App.allowed_file.
  rewrite !contains_app. simpl. rewrite !orb_true_r. simpl.
  rewrite !rsplit1_join by (by rewrite ?contains_dot_lower).
  simpl. by rewrite lower_idemp.
Qed.

Lemma allowed_file_extension_case_witness :
  App.allowed_file "holiday.photo.JPeG" = App.allowed_file "holiday.photo.jpeg".
Proof. apply (allowed_file_extension_case "holiday.photo" "JPeG"). reflexivity. Defined.

(** ** [app.py]: more on [report] *)

Section AppReportMore.
Variable secure_filename : string → string.
Variable now : Clock.datetime.

(** The state an accepted submission leaves. *)
Lemma report_outcome (req : request) (st : App.state) :
  (∃ n d s a f,
     method req = POST
     ∧ form req !! "item_name" = Some n ∧ form req !! "description" = Some d
     ∧ form req !! "status" = Some s ∧ form req !! "address" = Some a
     ∧ files req !! "proof" = Some f
     ∧ filename f ≠ "" ∧ App.allowed_file (filename f) = true
     ∧ App.report secure_filename now req st =
       (inr (App.redirect "dashboard"),
        App.mkState
          (App.table st ++
             [App.new_ReportedItem n d s "Anonymous" (Some a) (Clock.strftime now)
                (secure_filename (filename f)) (next_id App.id (App.table st))])
          (<[Str.path_join App.UPLOAD_FOLDER (secure_filename (filename f)) := stream f]>
             (App.uploads st))))
  ∨ ((App.report secure_filename now req st).1 ≠ inr (App.redirect "dashboard")
     ∧ (App.report secure_filename now req st).2 = st).
Proof.
  destruct (method req) eqn:Hm; [right; by rewrite report_GET|].
  destruct (form req !! "item_name") as [n|] eqn:Hn; last first.
  { right. unfold App.report, bind, getitem. by rewrite Hm, Hn. }
  destruct (form req !! "description") as [d|] eqn:Hd; last first.
  { right. unfold App.report, bind, getitem. by rewrite Hm, Hn, Hd. }
  destruct (form req !! "status") as [s|] eqn:Hs; last first.
  { right. unfold App.report, bind, getitem. by rewrite Hm, Hn, Hd, Hs. }
  destruct (form req !! "address") as [a|] eqn:Ha; last first.
  { right. unfold App.report, bind, getitem. by rewrite Hm, Hn, Hd, Hs, Ha. }
  destruct (files req !! "proof") as [f|] eqn:Hf; last first.
  { right. unfold App.report, bind, getitem. by rewrite Hm, Hn, Hd, Hs, Ha, Hf. }
  destruct (App.allowed_file (filename f)) eqn:Hallowed; last first.
  { right. unfold App.report, bind, getitem. rewrite Hm, Hn, Hd, Hs, Ha, Hf. simpl.
    by rewrite Hallowed, andb_false_r. }
  left. exists n, d, s, a, f. repeat (split; [done|]).
  assert (filename f ≠ "") as Hname by (by intros Heq; rewrite Heq in Hallowed).
  split; [done|]. split; [done|]. by apply report_accepted.
Qed.


(** X4: [report] reads the form fields in a fixed order and aborts with
    status 400 at the first one that is missing, naming it, before it looks
    at the upload; with all four present and no upload under [proof] it
    aborts naming [proof].  Nothing is stored either way. *)
Theorem report_aborts_at_first_missing_field (req : request) (st : App.state) :
  method req = POST →
  (∀ before key after,
     Forms.app = before ++ key :: after →
     (∀ k, k ∈ before → is_Some (form req !! k)) →
     form req !! key = None →
     App.report secure_filename now req st = (inl (BadRequest key), st))
  ∧ ((∀ k, k ∈ Forms.app → is_Some (form req !! k)) →
     files req !! "proof" = None →
     App.report secure_filename now req st = (inl (BadRequest "proof"), st)).
Proof.
  intros Hm. split.
  - intros before key after Hsplit Hbefore Hkey.
    unfold App.report, bind, getitem. rewrite Hm. unfold Forms.app in Hsplit.
    destruct before as [|k1 [|k2 [|k3 [|k4 before]]]]; simplify_eq/=.
    + by rewrite Hkey.
    + destruct (Hbefore "item_name") as [? ->]; [set_solver|]. by rewrite Hkey.
    + destruct (Hbefore "item_name") as [? ->]; [set_solver|].
      destruct (Hbefore "description") as [? ->]; [set_solver|]. by rewrite Hkey.
    + destruct (Hbefore "item_name") as [? ->]; [set_solver|].
      destruct (Hbefore "description") as [? ->]; [set_solver|].
      destruct (Hbefore "status") as [? ->]; [set_solver|]. by rewrite Hkey.
    + by destruct before.
  - intros Hall Hfile. unfold App.report, bind, getitem. rewrite Hm.
    unfold Forms.app in Hall.
    destruct (Hall "item_name") as [? ->]; [set_solver|].
    destruct (Hall "description") as [? ->]; [set_solver|].
    destruct (Hall "status") as [? ->]; [set_solver|].
    destruct (Hall "address") as [? ->]; [set_solver|]. by rewrite Hfile.
Qed.

(** X5: the redirect to the dashboard is the answer exactly when one row
    was appended to the table; with any other answer the table and the
    upload folder are the ones before. *)
Theorem report_redirects_iff_stored (req : request) (st : App.state) :
  ((App.report secure_filename now req st).1 = inr (App.redirect "dashboard")
   ↔ ∃ it, App.table (App.report secure_filename now req st).2 = App.table st ++ [it])
  ∧ ((App.report secure_filename now req st).1 ≠ inr (App.redirect "dashboard")
     → (App.report secure_filename now req st).2 = st).
Proof.
  destruct (report_outcome req st)
    as [(n & d & s & a & f & _ & _ & _ & _ & _ & _ & _ & _ & ->)|[Hans Hst]]; simpl.
  - split; [|done]. split; [by eexists|done].
  - split; [|done]. split; [done|]. rewrite Hst. intros [it Hit].
    apply (f_equal length) in Hit. rewrite length_app in Hit. simpl in Hit. lia.
Qed.

(** X6: what an accepted submission stores can be read back: the new key
    finds a row holding the posted fields, the reporter ["Anonymous"], the
    formatted clock reading and the sanitized file name; the path under the
    upload folder holds the uploaded bytes; every other key and every other
    path answer as before. *)
Theorem report_stores_what_was_posted (req : request) (st : App.state)
    (n d s a : string) (f : FileStorage) :
  method req = POST →
  form req !! "item_name" = Some n →
  form req !! "description" = Some d →
  form req !! "status" = Some s →
  form req !! "address" = Some a →
  files req !! "proof" = Some f →
  App.allowed_file (filename f) = true →
  let st' := (App.report secure_filename now req st).2 in
  let new_id := next_id App.id (App.table st) in
  let path := Str.path_join App.UPLOAD_FOLDER (secure_filename (filename f)) in
  query_get App.id new_id (App.table st')
  = Some (App.mkReportedItem new_id n d s "Anonymous" (Some a) (Clock.strftime now)
            (secure_filename (filename f)))
  ∧ (∀ k, k ≠ new_id →
       query_get App.id k (App.table st') = query_get App.id k (App.table st))
  ∧ App.uploads st' !! path = Some (stream f)
  ∧ (∀ p, p ≠ path → App.uploads st' !! p = App.uploads st !! p).
Proof.
  intros Hm Hn Hd Hs Ha Hf Hallowed st' new_id path. subst st'.
  assert (filename f ≠ "") as Hname by (by intros Heq; rewrite Heq in Hallowed).
  rewrite (report_accepted _ _ req st n d s a f) by done. simpl.
  split; [by apply query_get_inserted|]. split; [|split].
  - intros k Hk. by apply query_get_old.
  - apply lookup_insert_eq.
  - intros p Hp. by apply lookup_insert_ne.
Qed.


End AppReportMore.

(** ** Keys in creation order *)

Section KeyFacts.
Context {R : Type} (pk : R → Z).

(** In a table whose keys count up from 1, the next key is the number of
    rows plus one. *)
Lemma next_id_consecutive (t : list R) :
  pk <$> t = seqZ 1 (Z.of_nat (length t)) → next_id pk t = (1 + Z.of_nat (length t))%Z.
Proof.
  intros Hkeys.
  assert (∀ r, r ∈ t → (pk r ≤ Z.of_nat (length t))%Z) as Hle.
  { intros r Hr. assert (pk r ∈ seqZ 1 (Z.of_nat (length t))) as Hin.
    { rewrite <- Hkeys. apply list_elem_of_fmap. eauto. }
    apply elem_of_seqZ in Hin. lia. }
  assert (next_id pk t ≤ 1 + Z.of_nat (length t))%Z.
  { clear Hkeys. unfold next_id. revert Hle.
    assert (0 ≤ Z.of_nat (length t))%Z as Hpos by lia. revert Hpos.
    generalize (Z.of_nat (length t)).
    induction t as [|x t IH]; intros m Hpos Hle; simpl; [lia|].
    assert (pk x ≤ m)%Z by (apply Hle; left).
    assert (1 + foldr (λ r m, Z.max (pk r) m) 0 t ≤ 1 + m)%Z.
    { apply IH; [done|]. intros r Hr. apply Hle. by right. }
    lia. }
  assert (1 + Z.of_nat (length t) ≤ next_id pk t)%Z; [|lia].
  destruct (decide (t = [])) as [->|Hne]; [done|].
  assert (Z.of_nat (length t) ∈ pk <$> t) as (r & Hr & Hin)%list_elem_of_fmap.
  { rewrite Hkeys. apply elem_of_seqZ. destruct t; [done|]. simpl. lia. }
  pose proof (next_id_above pk t r Hin). lia.
Qed.

Lemma keys_consecutive_snoc (t : list R) (r : R) :
  pk <$> t = seqZ 1 (Z.of_nat (length t)) → pk r = next_id pk t →
  pk <$> t ++ [r] = seqZ 1 (Z.of_nat (length (t ++ [r]))).
Proof.
  intros Hkeys Hr. rewrite fmap_app, length_app. simpl.
  rewrite Nat2Z.inj_add, seqZ_app by lia. rewrite <- Hkeys. f_equal.
  rewrite Hr, (next_id_consecutive t Hkeys). simpl. by rewrite Z.add_comm.
Qed.

End KeyFacts.

Section AppInvariantsMore.
Variable secure_filename : string → string.

(** What one request does to the table and the upload folder. *)
Lemma app_run_op_outcome (o : App.op) (st : App.state) :
  App.run_op secure_filename o st = st ∨
  ∃ it path bytes,
    App.run_op secure_filename o st
    = App.mkState (App.table st ++ [it]) (<[path := bytes]> (App.uploads st))
    ∧ App.id it = next_id App.id (App.table st)
    ∧ App.reported_by it = "Anonymous"
    ∧ is_Some (App.address it)
    ∧ path = Str.path_join App.UPLOAD_FOLDER (App.proof it).
Proof.
  destruct o as [| |now req|name]; simpl; try by left.
  destruct (report_outcome secure_filename now req st)
    as [(n & d & s & a & f & _ & _ & _ & _ & _ & _ & _ & _ & ->)|[_ Hst]];
    [|by left].
  right. simpl. eexists _, _, _. split; [done|]. by simpl.
Qed.

(** X8: in every state [app.py] reaches, each row is reported by
    ["Anonymous"], has an address, and names as [proof] a file that is in
    the upload folder. *)
Theorem stored_rows_anonymous_with_saved_proof (ops : list App.op) :
  Forall (λ it, App.reported_by it = "Anonymous"
                ∧ is_Some (App.address it)
                ∧ is_Some (App.uploads (App.run_ops secure_filename ops)
                             !! Str.path_join App.UPLOAD_FOLDER (App.proof it)))
    (App.table (App.run_ops secure_filename ops)).
Proof.
  induction ops as [|o ops IH] using rev_ind; [constructor|].
  rewrite app_run_ops_snoc.
  destruct (app_run_op_outcome o (App.run_ops secure_filename ops))
    as [->|(it & path & bytes & -> & _ & Hby & Haddr & ->)]; [done|]. simpl.
  apply Forall_app. split.
  - eapply Forall_impl; [exact IH|]. intros r (? & ? & Hfile). simpl.
    split; [done|]. split; [done|]. rewrite lookup_insert_is_Some'. by right.
  - apply Forall_singleton. split; [done|]. split; [done|].
    rewrite lookup_insert_eq. by eexists.
Qed.

(** X9: the keys of [app.py]'s table count up from 1 in creation order, so
    no key is ever given twice. *)
Theorem reported_item_keys_count_up (ops : list App.op) :
  App.id <$> App.table (App.run_ops secure_filename ops)
  = seqZ 1 (Z.of_nat (length (App.table (App.run_ops secure_filename ops)))).
Proof.
  induction ops as [|o ops IH] using rev_ind; [done|].
  rewrite app_run_ops_snoc.
  destruct (app_run_op_outcome o (App.run_ops secure_filename ops))
    as [->|(it & path & bytes & -> & Hid & _)]; [done|]. simpl.
  by apply keys_consecutive_snoc.
Qed.

End AppInvariantsMore.

(** ** More on the dashboard *)

Lemma count_by_status_partition {R} (status : R → string) (t : list R) :
  count_by_status status "Lost" t + count_by_status status "Found" t
  + length (filter (λ r, status r ∉ statuses) t) = length t.
Proof.
  induction t as [|r t IH]; [done|].
  rewrite !count_by_status_cons, filter_cons. simpl.
  destruct (decide (status r = "Lost")) as [HL|HL];
    destruct (decide (status r = "Found")) as [HF|HF];
    destruct (decide (status r ∉ statuses)) as [HO|HO]; simpl; try lia; exfalso.
  - rewrite HL in HF. discriminate.
  - rewrite HL in HF. discriminate.
  - apply HO. rewrite HL. unfold statuses. left.
  - apply HO. rewrite HF. unfold statuses. right. left.
  - apply HO. unfold statuses. rewrite !not_elem_of_cons. split; [done|].
    split; [done|]. apply not_elem_of_nil.
Qed.

(** X10: the two totals of the dashboard and the rows whose status is
    neither ["Lost"] nor ["Found"] add up to the table: a row with any
    other status, another spelling included, is counted under neither. *)
Theorem dashboard_totals_leave_out_other_statuses (st : App.state) :
  ∃ data,
    (App.dashboard st).1 = inr (App.render_template "dashboard.html" (Some data))
    ∧ App.total_lost data + App.total_found data
      + length (filter (λ r, App.status r ∉ statuses) (App.table st))
      = length (App.table st).
Proof. eexists. split; [reflexivity|]. simpl. apply count_by_status_partition. Qed.

(** X11: with at most five rows in the table nothing is left out of
    [recent_activity]: it holds every row once. *)
Theorem dashboard_shows_all_of_a_small_table (st : App.state) :
  length (App.table st) ≤ 5 →
  ∃ data,
    (App.dashboard st).1 = inr (App.render_template "dashboard.html" (Some data))
    ∧ App.recent_activity data ≡ₚ App.table st.
Proof.
  intros Hlen. eexists. split; [reflexivity|]. simpl.
  rewrite take_ge; [apply order_by_date_desc_rows|].
  by rewrite (order_by_date_desc_rows (App.table st)).
Qed.

Section ReportThenDashboard.
Variable secure_filename : string → string.
Variable now : Clock.datetime.

(** X12: after an accepted submission the dashboard counts one more row
    under the submitted status and as many as before under the other. *)
Theorem report_adds_one_to_its_total (req : request) (st : App.state)
    (n d s a : string) (f : FileStorage) :
  method req = POST →
  form req !! "item_name" = Some n →
  form req !! "description" = Some d →
  form req !! "status" = Some s →
  form req !! "address" = Some a →
  files req !! "proof" = Some f →
  App.allowed_file (filename f) = true →
  ∃ data data',
    (App.dashboard st).1 = inr (App.render_template "dashboard.html" (Some data))
    ∧ (App.dashboard (App.report secure_filename now req st).2).1
      = inr (App.render_template "dashboard.html" (Some data'))
    ∧ App.total_lost data'
      = App.total_lost data + (if decide (s = "Lost") then 1 else 0)
    ∧ App.total_found data'
      = App.total_found data + (if decide (s = "Found") then 1 else 0).
Proof.
  intros Hm Hn Hd Hs Ha Hf Hallowed.
  assert (filename f ≠ "") as Hname by (by intros Heq; rewrite Heq in Hallowed).
  rewrite (report_accepted _ _ req st n d s a f) by done.
  eexists _, _. split; [reflexivity|]. split; [reflexivity|]. simpl.
  rewrite !count_by_status_app, !count_by_status_cons. simpl.
  unfold count_by_status. simpl. split; lia.
Qed.

(** X13: an accepted submission whose date is greater than every date in
    the table comes first in [recent_activity]. *)
Theorem newest_report_tops_the_dashboard (req : request) (st : App.state)
    (n d s a : string) (f : FileStorage) :
  method req = POST →
  form req !! "item_name" = Some n →
  form req !! "description" = Some d →
  form req !! "status" = Some s →
  form req !! "address" = Some a →
  files req !! "proof" = Some f →
  App.allowed_file (filename f) = true →
  Forall (λ r, (App.date r ≤ Clock.strftime now)%string
               ∧ App.date r ≠ Clock.strftime now) (App.table st) →
  ∃ data',
    (App.dashboard (App.report secure_filename now req st).2).1
    = inr (App.render_template "dashboard.html" (Some data'))
    ∧ head (App.recent_activity data')
      = Some (App.mkReportedItem (next_id App.id (App.table st)) n d s "Anonymous"
                (Some a) (Clock.strftime now) (secure_filename (filename f))).
Proof.
  intros Hm Hn Hd Hs Ha Hf Hallowed Holder.
  assert (filename f ≠ "") as Hname by (by intros Heq; rewrite Heq in Hallowed).
  rewrite (report_accepted _ _ req st n d s a f) by done.
  eexists. split; [reflexivity|]. simpl.
  set (it := App.new_ReportedItem _ _ _ _ _ _ _ _).
  pose proof (order_by_date_desc_sorted (App.table st ++ [it])) as Hsorted.
  pose proof (order_by_date_desc_rows (App.table st ++ [it])) as Hrows.
  destruct (App.order_by_date_desc (App.table st ++ [it])) as [|h rest] eqn:Horder.
  { apply Permutation_length in Hrows. rewrite length_app in Hrows.
    simpl in Hrows. lia. }
  simpl. f_equal.
  apply StronglySorted_cons in Hsorted as [Hh _]. rewrite Forall_forall in Hh.
  rewrite Forall_forall in Holder.
  assert (h ∈ App.table st ++ [it]) as Hin by (rewrite <- Hrows; left).
  apply elem_of_app in Hin as [Hin|Hin]; [|by apply list_elem_of_singleton in Hin].
  exfalso. destruct (Holder h Hin) as [Hle Hne].
  assert (it ∈ h :: rest) as Hit by (rewrite Hrows; apply elem_of_app; right; left).
  apply elem_of_cons in Hit as [Hit|Hit].
  - apply Hne. by rewrite <- Hit.
  - apply Hne. apply (anti_symm String.le); [done|]. apply (Hh it Hit).
Qed.

End ReportThenDashboard.

(** ** More on dates *)

Lemma clock_le_total (d1 d2 : Clock.datetime) : Clock.le d1 d2 ∨ Clock.le d2 d1.
Proof.
  destruct d1 as [Y1 m1 D1 h1 M1 s1], d2 as [Y2 m2 D2 h2 M2 s2].
  unfold Clock.le. simpl. lia.
Qed.

Lemma string_compare_refl (s : string) : String.compare s s = Eq.
Proof.
  induction s as [|c s IH]; simpl; [done|].
  unfold Ascii.compare. by rewrite N.compare_refl.
Qed.

Ltac field_smaller lt_lemma :=
  rewrite ?compare_app_same;
  first [apply compare_app_lt; [done|apply lt_lemma; lia] | apply lt_lemma; lia].

Lemma strftime_to_second (d : Clock.datetime) :
  Clock.strftime (Clock.to_second d) = Clock.strftime d.
Proof. by destruct d. Qed.

Lemma to_second_valid (d : Clock.datetime) :
  Clock.valid d → Clock.valid (Clock.to_second d).
Proof. destruct d. unfold Clock.valid. simpl. lia. Qed.

Lemma to_second_le (d1 d2 : Clock.datetime) :
  Clock.le d1 d2 → Clock.le (Clock.to_second d1) (Clock.to_second d2).
Proof. destruct d1, d2. unfold Clock.le. simpl. lia. Qed.

(** Of two valid readings in different seconds the earlier has the smaller
    string. *)
Lemma strftime_compare_lt (d1 d2 : Clock.datetime) :
  Clock.valid d1 → Clock.valid d2 →
  Clock.le (Clock.to_second d1) (Clock.to_second d2) →
  Clock.to_second d1 ≠ Clock.to_second d2 →
  String.compare (Clock.strftime d1) (Clock.strftime d2) = Lt.
Proof.
  destruct d1 as [Y1 m1 D1 h1 M1 s1 u1], d2 as [Y2 m2 D2 h2 M2 s2 u2].
  intros Hv1 Hv2 Hle Hne.
  unfold Clock.valid in Hv1, Hv2. unfold Clock.le in Hle.
  unfold Clock.to_second in Hne. simpl in Hv1, Hv2, Hle, Hne.
  unfold Clock.strftime.
  cbn [Clock.year Clock.month Clock.day Clock.hour Clock.minute Clock.second].
  destruct Hle as [Hlt|[<- Hle]]; [field_smaller pad4_lt|].
  do 4 (destruct Hle as [Hlt|[<- Hle]]; [field_smaller pad2_lt|]).
  destruct Hle as [Hlt|[<- _]]; [field_smaller pad2_lt|done].
Qed.

(** X14: the format orders valid clock readings by their time cut to the
    second.  A reading no later than another gets a string no greater; the
    strings compare as the readings cut to the second do; and two readings
    get the same string exactly when they fall in the same second, so the
    [date] column cannot tell the order of two rows created within one
    second. *)
Theorem strftime_orders_by_the_second (d1 d2 : Clock.datetime) :
  Clock.valid d1 → Clock.valid d2 →
  (Clock.le d1 d2 → (Clock.strftime d1 ≤ Clock.strftime d2)%string)
  ∧ ((Clock.strftime d1 ≤ Clock.strftime d2)%string
     ↔ Clock.le (Clock.to_second d1) (Clock.to_second d2))
  ∧ (Clock.strftime d1 = Clock.strftime d2
     ↔ Clock.to_second d1 = Clock.to_second d2).
Proof.
  intros Hv1 Hv2. split; [by apply strftime_mono|]. split; split.
  - intros Hstr.
    destruct (clock_le_total (Clock.to_second d1) (Clock.to_second d2))
      as [Hle|Hle]; [done|].
    destruct (decide (Clock.to_second d1 = Clock.to_second d2)) as [Heq|Hne];
      [rewrite Heq in Hle |- *; exact Hle|]. exfalso.
    pose proof (strftime_compare_lt d2 d1 Hv2 Hv1 Hle (not_eq_sym Hne)) as Hlt.
    unfold String.le, String.leb in Hstr.
    rewrite String.compare_antisym, Hlt in Hstr. simpl in Hstr. done.
  - intros Hle. rewrite <- (strftime_to_second d1), <- (strftime_to_second d2).
    apply strftime_mono; auto using to_second_valid.
  - intros Heq.
    destruct (decide (Clock.to_second d1 = Clock.to_second d2)) as [|Hne];
      [done|]. exfalso.
    destruct (clock_le_total (Clock.to_second d1) (Clock.to_second d2))
      as [Hle|Hle].
    + pose proof (strftime_compare_lt d1 d2 Hv1 Hv2 Hle Hne) as Hlt.
      rewrite Heq, string_compare_refl in Hlt. discriminate.
    + pose proof (strftime_compare_lt d2 d1 Hv2 Hv1 Hle (not_eq_sym Hne)) as Hlt.
      rewrite Heq, string_compare_refl in Hlt. discriminate.
  - intros Heq. rewrite <- (strftime_to_second d1), <- (strftime_to_second d2).
    by rewrite Heq.
Qed.

(** ** [search.py] and [safety.py]: more on [report], [update] and the seed *)

Section ItemsMore.
Implicit Types (t : list Items.Item) (req : request) (item_id k : Z) (s : string)
  (r it : Items.Item).

Lemma set_status_own r : Items.set_status (Items.status r) r = r.
Proof. by destruct r. Qed.

Lemma set_status_twice s1 s2 r :
  Items.set_status s2 (Items.set_status s1 r) = Items.set_status s2 r.
Proof. done. Qed.

Lemma overwrite_status_twice item_id s1 s2 r :
  Items.overwrite_status item_id s2 (Items.overwrite_status item_id s1 r)
  = Items.overwrite_status item_id s2 r.
Proof.
  unfold Items.overwrite_status.
  destruct (decide (Items.id r = item_id)) as [Hid|Hid]; simpl.
  - by rewrite decide_True.
  - by rewrite decide_False.
Qed.

Lemma overwrite_status_comm k1 k2 s1 s2 r :
  k1 ≠ k2 →
  Items.overwrite_status k2 s2 (Items.overwrite_status k1 s1 r)
  = Items.overwrite_status k1 s1 (Items.overwrite_status k2 s2 r).
Proof.
  intros Hne. unfold Items.overwrite_status.
  destruct (decide (Items.id r = k1)) as [H1|H1];
    destruct (decide (Items.id r = k2)) as [H2|H2]; simpl.
  - exfalso. apply Hne. by rewrite <- H1.
  - rewrite (decide_False _ _ H2), (decide_True _ _ H1). done.
  - rewrite (decide_False _ _ H1). done.
  - rewrite (decide_False _ _ H1). done.
Qed.

(** The table [update] leaves, by what it finds. *)
Lemma update_effect item_id req t :
  (Items.update item_id req t).2 =
  match query_get Items.id item_id t, method req, form req !! "status" with
  | Some _, POST, Some s => Items.overwrite_status item_id s <$> t
  | _, _, _ => t
  end.
Proof.
  destruct (query_get Items.id item_id t) as [it|] eqn:Hget;
    [|by rewrite update_not_found].
  destruct (method req) eqn:Hm; [by rewrite (update_GET _ _ _ it)|].
  destruct (form req !! "status") as [s|] eqn:Hs;
    [by rewrite (update_POST _ _ _ it s)|by rewrite (update_POST_no_status _ _ _ it)].
Qed.

Lemma query_get_overwrite_is_Some item_id k s t :
  is_Some (query_get Items.id k (Items.overwrite_status item_id s <$> t))
  ↔ is_Some (query_get Items.id k t).
Proof. rewrite query_get_overwrite_status. apply fmap_is_Some. Qed.

Lemma update_effect_after item_id k s req t :
  (Items.update k req (Items.overwrite_status item_id s <$> t)).2 =
  match query_get Items.id k t, method req, form req !! "status" with
  | Some _, POST, Some s' =>
      Items.overwrite_status k s' <$> (Items.overwrite_status item_id s <$> t)
  | _, _, _ => Items.overwrite_status item_id s <$> t
  end.
Proof.
  rewrite update_effect, query_get_overwrite_status.
  by destruct (query_get Items.id k t).
Qed.

(** In a table with distinct keys, the key of a row finds that row. *)
Lemma query_get_of_row t r :
  NoDup (Items.id <$> t) → r ∈ t → query_get Items.id (Items.id r) t = Some r.
Proof.
  induction t as [|x t IH]; intros Hnodup Hr; [by apply elem_of_nil in Hr|].
  csimpl in Hnodup. apply NoDup_cons in Hnodup as [Hx Hnodup]. simpl.
  apply elem_of_cons in Hr as [->|Hr]; [by rewrite decide_True|].
  rewrite decide_False; [by apply IH|].
  intros Heq. apply Hx. rewrite Heq. apply list_elem_of_fmap. eauto.
Qed.

(** With distinct keys the UPDATE writes one row, the one its key finds. *)
Lemma overwrite_status_one_row item_id s t it :
  NoDup (Items.id <$> t) → query_get Items.id item_id t = Some it →
  ∃ i : nat, t !! i = Some it
    ∧ Items.overwrite_status item_id s <$> t = <[i := Items.set_status s it]> t.
Proof.
  induction t as [|x t IH]; intros Hnodup Hget; [done|].
  csimpl in Hnodup. apply NoDup_cons in Hnodup as [Hx Hnodup]. simpl in Hget.
  case_decide as Hid.
  - injection Hget as ->. exists 0%nat. split; [done|]. csimpl.
    unfold Items.overwrite_status at 1. rewrite decide_True by done. f_equal.
    rewrite <- (list_fmap_id t) at 2. apply list_fmap_ext. intros i r Hr. simpl.
    unfold Items.overwrite_status. rewrite decide_False; [done|].
    intros Heq. apply Hx. rewrite Hid, <- Heq. apply list_elem_of_fmap.
    exists r. split; [done|]. by eapply list_elem_of_lookup_2.
  - destruct (IH Hnodup Hget) as (i & Hi & Heq). exists (S i). split; [done|].
    csimpl. unfold Items.overwrite_status at 1. rewrite decide_False by done.
    by rewrite Heq.
Qed.

(** X15: [report] reads its six form fields in a fixed order and aborts
    with status 400 at the first one that is missing, naming it; the table
    is the one before. *)
Theorem items_report_aborts_at_first_missing_field req t before key after :
  method req = POST →
  Forms.items = before ++ key :: after →
  (∀ field : string, field ∈ before → is_Some (form req !! field)) →
  form req !! key = None →
  Items.report req t = (inl (BadRequest key), t).
Proof.
  intros Hm Hsplit Hbefore Hkey. unfold Items.report, bind, getitem. rewrite Hm.
  unfold Forms.items in Hsplit.
  destruct before as [|k1 [|k2 [|k3 [|k4 [|k5 [|k6 before]]]]]]; simplify_eq/=.
  - by rewrite Hkey.
  - destruct (Hbefore "item_name") as [? ->]; [set_solver|]. by rewrite Hkey.
  - destruct (Hbefore "item_name") as [? ->]; [set_solver|].
    destruct (Hbefore "description") as [? ->]; [set_solver|]. by rewrite Hkey.
  - destruct (Hbefore "item_name") as [? ->]; [set_solver|].
    destruct (Hbefore "description") as [? ->]; [set_solver|].
    destruct (Hbefore "reported_by") as [? ->]; [set_solver|]. by rewrite Hkey.
  - destruct (Hbefore "item_name") as [? ->]; [set_solver|].
    destruct (Hbefore "description") as [? ->]; [set_solver|].
    destruct (Hbefore "reported_by") as [? ->]; [set_solver|].
    destruct (Hbefore "contact_info") as [? ->]; [set_solver|]. by rewrite Hkey.
  - destruct (Hbefore "item_name") as [? ->]; [set_solver|].
    destruct (Hbefore "description") as [? ->]; [set_solver|].
    destruct (Hbefore "reported_by") as [? ->]; [set_solver|].
    destruct (Hbefore "contact_info") as [? ->]; [set_solver|].
    destruct (Hbefore "proof") as [? ->]; [set_solver|]. by rewrite Hkey.
  - by destruct before.
Qed.

(** X16: what a complete submission stores can be read back: the new key
    finds a row holding the six posted fields and the status ["Lost"], and
    every other key answers as before. *)
Theorem items_report_stores_what_was_posted req t (n d b c p a : string) :
  method req = POST →
  form req !! "item_name" = Some n →
  form req !! "description" = Some d →
  form req !! "reported_by" = Some b →
  form req !! "contact_info" = Some c →
  form req !! "proof" = Some p →
  form req !! "address" = Some a →
  query_get Items.id (next_id Items.id t) (Items.report req t).2
  = Some (Items.mkItem (next_id Items.id t) n d b c "Lost" (Some p) (Some a))
  ∧ ∀ k, k ≠ next_id Items.id t →
      query_get Items.id k (Items.report req t).2 = query_get Items.id k t.
Proof.
  intros Hm Hn Hd Hb Hc Hp Ha.
  rewrite (items_report_POST req t n d b c p a) by done. simpl.
  split; [by apply query_get_inserted|]. intros k Hk. by apply query_get_old.
Qed.

(** Two accepted updates of one id in a row. *)
Lemma update_after_update item_id req1 req2 t s2 :
  method req2 = POST →
  form req2 !! "status" = Some s2 →
  (Items.update item_id req2 (Items.update item_id req1 t).2).2
  = (Items.update item_id req2 t).2.
Proof.
  intros Hm Hs. rewrite (update_effect item_id req1 t).
  destruct (query_get Items.id item_id t) as [it|] eqn:Hget; [|done].
  destruct (method req1); [done|].
  destruct (form req1 !! "status") as [s1|]; [|done].
  rewrite update_effect_after, update_effect, Hget, Hm, Hs.
  rewrite <- list_fmap_compose. apply list_fmap_ext.
  intros i r _. apply overwrite_status_twice.
Qed.

(** X17: the last posted status wins: after any update request for an
    existing id followed by a POST with a status for the same id, the item
    of that id carries the status posted last, with its other columns as
    they were, and the whole table is the one the second request alone would
    leave. *)
Theorem update_last_status_wins item_id req1 req2 t it s2 :
  query_get Items.id item_id t = Some it →
  method req2 = POST →
  form req2 !! "status" = Some s2 →
  query_get Items.id item_id
    (Items.update item_id req2 (Items.update item_id req1 t).2).2
  = Some (Items.set_status s2 it)
  ∧ (Items.update item_id req2 (Items.update item_id req1 t).2).2
    = (Items.update item_id req2 t).2.
Proof.
  intros Hget Hm Hs. rewrite (update_after_update _ _ _ _ _ Hm Hs).
  split; [|done]. rewrite (update_POST _ _ _ it s2) by done. simpl.
  rewrite query_get_overwrite_status, Hget. simpl.
  destruct (query_get_Some _ _ _ _ Hget) as [_ Hid].
  unfold Items.overwrite_status. by rewrite decide_True.
Qed.

(** X18: status updates for different ids do not interfere: in either order
    they leave the same table. *)
Theorem updates_of_different_ids_commute k1 k2 req1 req2 t :
  k1 ≠ k2 →
  (Items.update k2 req2 (Items.update k1 req1 t).2).2
  = (Items.update k1 req1 (Items.update k2 req2 t).2).2.
Proof.
  intros Hne. rewrite (update_effect k1 req1 t), (update_effect k2 req2 t).
  destruct (query_get Items.id k1 t) as [it1|] eqn:Hget1;
    destruct (query_get Items.id k2 t) as [it2|] eqn:Hget2;
    destruct (method req1) eqn:Hm1; destruct (method req2) eqn:Hm2;
    destruct (form req1 !! "status") as [s1|] eqn:Hs1;
    destruct (form req2 !! "status") as [s2|] eqn:Hs2;
    rewrite ?update_effect_after, ?update_effect, ?Hget1, ?Hget2, ?Hm1, ?Hm2,
      ?Hs1, ?Hs2; try done.
  rewrite <- !list_fmap_compose. apply list_fmap_ext.
  intros i r _. by apply overwrite_status_comm.
Qed.

(** X19: for a POST without the [status] field, [update] looks the id up
    first: an id with no record ends in status 404, or in status 500 when
    SQLite cannot hold it, and an id with a record ends in status 400 naming
    [status].  The table is the one before in each case. *)
Theorem update_without_status item_id req t :
  method req = POST →
  form req !! "status" = None →
  Items.update item_id req t
  = (inl (if query_get Items.id item_id t is Some _ then BadRequest "status"
          else if decide (is_int64 item_id) then NotFound
          else InternalServerError), t).
Proof.
  intros Hm Hs. destruct (query_get Items.id item_id t) as [it|] eqn:Hget.
  - by apply (update_POST_no_status _ _ _ it).
  - by apply update_not_found.
Qed.

(** X20: [create_sample_data] seeds only an empty table: on a table with a
    row it does nothing, so running it again after it has run changes
    nothing. *)
Theorem create_sample_data_only_on_empty t :
  (t ≠ [] → (Items.create_sample_data t).2 = t)
  ∧ (Items.create_sample_data (Items.create_sample_data t).2).2
    = (Items.create_sample_data t).2.
Proof.
  split.
  - intros Hne. by destruct t.
  - by destruct t.
Qed.

End ItemsMore.

Section ItemsRuns.
Implicit Types (t : list Items.Item) (ops : list Items.op).

Lemma items_run_ops_snoc ops (o : Items.op) :
  Items.run_ops (ops ++ [o]) = Items.run_op o (Items.run_ops ops).
Proof. unfold Items.run_ops. by rewrite foldl_snoc. Qed.

(** What one request does to the table. *)
Lemma items_run_op_outcome (o : Items.op) t :
  Items.run_op o t = t
  ∨ (∃ it, Items.run_op o t = t ++ [it] ∧ Items.id it = next_id Items.id t)
  ∨ (∃ item_id s, Items.run_op o t = Items.overwrite_status item_id s <$> t).
Proof.
  destruct o as [|req|item_id req|]; simpl.
  - by left.
  - destruct (items_report_state req t) as [->|(it & -> & _ & Hid)];
      [by left|right; left; eauto].
  - destruct (update_state item_id req t) as [->|(s & _ & ->)];
      [by left|right; right; eauto].
  - destruct (create_sample_data_state t) as [->|(it & -> & _ & Hid)];
      [by left|right; left; eauto].
Qed.

(** X21: the keys of the table of [search.py] and [safety.py] count up from
    1 in creation order, whatever requests were served, so no key is ever
    given twice. *)
Theorem item_keys_count_up ops :
  Items.id <$> Items.run_ops ops = seqZ 1 (Z.of_nat (length (Items.run_ops ops))).
Proof.
  induction ops as [|o ops IH] using rev_ind; [done|].
  rewrite items_run_ops_snoc.
  destruct (items_run_op_outcome o (Items.run_ops ops))
    as [->|[(it & -> & Hid)|(item_id & s & ->)]]; [done| |].
  - by apply keys_consecutive_snoc.
  - rewrite <- list_fmap_compose, length_fmap. rewrite <- IH.
    apply list_fmap_ext. intros i r _. apply overwrite_status_id.
Qed.

(** X22: no request removes a row or changes anything but its status: a row
    of the table is, after any further requests, at the same place and the
    same in every column except possibly [status]. *)
Theorem rows_change_only_in_status ops (ops' : list Items.op) (i : nat)
    (r : Items.Item) :
  Items.run_ops ops !! i = Some r →
  ∃ s, Items.run_ops (ops ++ ops') !! i = Some (Items.set_status s r).
Proof.
  intros Hr. induction ops' as [|o ops' IH] using rev_ind.
  - exists (Items.status r). by rewrite app_nil_r, set_status_own.
  - destruct IH as [s Hs]. rewrite app_assoc, items_run_ops_snoc.
    destruct (items_run_op_outcome o (Items.run_ops (ops ++ ops')))
      as [->|[(it & -> & _)|(item_id & s' & ->)]].
    + by exists s.
    + exists s. by apply lookup_app_l_Some.
    + rewrite list_lookup_fmap, Hs. simpl. unfold Items.overwrite_status.
      case_decide; [by exists s'|by exists s].
Qed.

(** X23: in a table the application has reached, an accepted status update
    writes exactly one row: the table after is the table before with the
    row of that id replaced by itself under the new status. *)
Theorem update_writes_one_row ops (item_id : Z) (req : request)
    (it : Items.Item) (s : string) :
  query_get Items.id item_id (Items.run_ops ops) = Some it →
  method req = POST →
  form req !! "status" = Some s →
  ∃ i : nat,
    Items.run_ops ops !! i = Some it
    ∧ (Items.update item_id req (Items.run_ops ops)).2
      = <[i := Items.set_status s it]> (Items.run_ops ops).
Proof.
  intros Hget Hm Hs. rewrite (update_POST _ _ _ it s) by done. simpl.
  apply overwrite_status_one_row; [|done].
  apply items_keys_distinct.
Qed.

(** X24: in a table the application has reached, posting an item's own
    status back undoes any status update of that item made in between: the
    table is again the one before. *)
Theorem update_back_restores_table ops (item_id : Z) (req1 req2 : request)
    (it : Items.Item) :
  query_get Items.id item_id (Items.run_ops ops) = Some it →
  method req2 = POST →
  form req2 !! "status" = Some (Items.status it) →
  (Items.update item_id req2 (Items.update item_id req1 (Items.run_ops ops)).2).2
  = Items.run_ops ops.
Proof.
  intros Hget Hm Hs. rewrite (update_after_update _ _ _ _ _ Hm Hs).
  rewrite (update_POST _ _ _ it (Items.status it)) by done. simpl.
  destruct (overwrite_status_one_row item_id (Items.status it) _ it
              (items_keys_distinct ops) Hget) as (i & Hi & ->).
  rewrite set_status_own. by apply list_insert_id.
Qed.

End ItemsRuns.

(** ** Instances of the properties above *)

Lemma report_aborts_at_first_missing_field_witness :
  App.report Sample.keep_name Sample.next_morning Sample.no_status Sample.app_init
  = (inl (BadRequest "status"), Sample.app_init).
Proof.
  apply (proj1 (report_aborts_at_first_missing_field Sample.keep_name
                  Sample.next_morning Sample.no_status Sample.app_init eq_refl)
           ["item_name"; "description"] "status" ["address"]).
  - reflexivity.
  - apply Forall_forall. apply (bool_decide_unpack _). vm_compute. exact I.
  - reflexivity.
Defined.

Lemma report_stores_what_was_posted_witness :
  App.uploads (App.report Sample.keep_name Sample.next_morning Cases.first_photo
                 Sample.app_init).2 !! "uploads/photo.jpg" = Some "first image".
Proof.
  apply (report_stores_what_was_posted Sample.keep_name Sample.next_morning
           Cases.first_photo Sample.app_init "Wallet" "Black leather" "Found"
           "Building B" (mkFile "photo.jpg" "first image")); reflexivity.
Defined.


Lemma dashboard_shows_all_of_a_small_table_witness :
  ∃ data,
    (App.dashboard (App.run_ops Sample.keep_name Sample.morning_run)).1
    = inr (App.render_template "dashboard.html" (Some data))
    ∧ App.recent_activity data
      ≡ₚ App.table (App.run_ops Sample.keep_name Sample.morning_run).
Proof.
  apply dashboard_shows_all_of_a_small_table.
  apply (bool_decide_unpack _). vm_compute. exact I.
Defined.

Lemma report_adds_one_to_its_total_witness :
  ∃ data data',
    (App.dashboard Cases.after_week).1
    = inr (App.render_template "dashboard.html" (Some data))
    ∧ (App.dashboard (App.report Sample.keep_name Cases.day_after Sample.photo_jpg
                        Cases.after_week).2).1
      = inr (App.render_template "dashboard.html" (Some data'))
    ∧ App.total_lost data' = App.total_lost data + 0
    ∧ App.total_found data' = App.total_found data + 1.
Proof.
  apply (report_adds_one_to_its_total Sample.keep_name Cases.day_after
           Sample.photo_jpg Cases.after_week "Wallet" "Black leather" "Found"
           "Building B" (mkFile "photo.jpg" "image bytes")); reflexivity.
Defined.

Lemma newest_report_tops_the_dashboard_witness :
  ∃ data',
    (App.dashboard (App.report Sample.keep_name Cases.day_after Sample.photo_jpg
                      Cases.after_week).2).1
    = inr (App.render_template "dashboard.html" (Some data'))
    ∧ head (App.recent_activity data')
      = Some (App.mkReportedItem 7 "Wallet" "Black leather" "Found" "Anonymous"
                (Some "Building B") "2024-11-10 09:30:00" "photo.jpg").
Proof.
  apply (newest_report_tops_the_dashboard Sample.keep_name Cases.day_after
           Sample.photo_jpg Cases.after_week "Wallet" "Black leather" "Found"
           "Building B" (mkFile "photo.jpg" "image bytes")); try reflexivity.
  apply (bool_decide_unpack _). vm_compute. exact I.
Defined.

Lemma strftime_orders_by_the_second_witness :
  Clock.strftime Cases.early_in_second = Clock.strftime Cases.late_in_second
  ∧ ¬ Clock.le Cases.late_in_second Cases.early_in_second.
Proof.
  split.
  - apply (strftime_orders_by_the_second Cases.early_in_second
             Cases.late_in_second);
      [apply (bool_decide_unpack _); vm_compute; exact I..|reflexivity].
  - apply (bool_decide_unpack _). vm_compute. exact I.
Defined.

Lemma items_report_aborts_at_first_missing_field_witness :
  Items.report Cases.no_contact_info Sample.seeded
  = (inl (BadRequest "contact_info"), Sample.seeded).
Proof.
  apply (items_report_aborts_at_first_missing_field Cases.no_contact_info
           Sample.seeded ["item_name"; "description"; "reported_by"]
           "contact_info" ["proof"; "address"]).
  - reflexivity.
  - reflexivity.
  - apply Forall_forall. apply (bool_decide_unpack _). vm_compute. exact I.
  - reflexivity.
Defined.

Lemma items_report_stores_what_was_posted_witness :
  query_get Items.id 2 (Items.report Sample.found_wallet Sample.seeded).2
  = Some (Items.mkItem 2 "Wallet" "Black leather" "Jane" "jane@example.com" "Lost"
            (Some "receipt") (Some "Building B")).
Proof.
  apply (items_report_stores_what_was_posted Sample.found_wallet Sample.seeded
           "Wallet" "Black leather" "Jane" "jane@example.com" "receipt"
           "Building B"); reflexivity.
Defined.

Lemma update_last_status_wins_witness :
  query_get Items.id 1
    (Items.update 1 (Sample.set_to "Found")
       (Items.update 1 (Sample.set_to "Stolen") Sample.seeded).2).2
  = Some (Items.set_status "Found" Sample.lost_wallet).
Proof.
  apply (update_last_status_wins 1 (Sample.set_to "Stolen") (Sample.set_to "Found")
           Sample.seeded Sample.lost_wallet "Found"); reflexivity.
Defined.

Lemma updates_of_different_ids_commute_witness :
  (Items.update 2 (Sample.set_to "Found")
     (Items.update 1 (Sample.set_to "Stolen") (Items.run_ops Cases.two_wallets)).2).2
  = (Items.update 1 (Sample.set_to "Stolen")
       (Items.update 2 (Sample.set_to "Found") (Items.run_ops Cases.two_wallets)).2).2.
Proof. apply updates_of_different_ids_commute. discriminate. Defined.

Lemma update_without_status_witness :
  Items.update 1 Cases.empty_post Sample.seeded
  = (inl (BadRequest "status"), Sample.seeded)
  ∧ Items.update 7 Cases.empty_post Sample.seeded = (inl NotFound, Sample.seeded)
  ∧ Items.update Cases.beyond_int64 Cases.empty_post Sample.seeded
    = (inl InternalServerError, Sample.seeded).
Proof.
  split; [|split].
  - apply (update_without_status 1 Cases.empty_post Sample.seeded); reflexivity.
  - apply (update_without_status 7 Cases.empty_post Sample.seeded); reflexivity.
  - apply (update_without_status Cases.beyond_int64 Cases.empty_post
             Sample.seeded); reflexivity.
Defined.

Lemma create_sample_data_only_on_empty_witness :
  (Items.create_sample_data Sample.seeded).2 = Sample.seeded.
Proof.
  apply (proj1 (create_sample_data_only_on_empty Sample.seeded)). discriminate.
Defined.

Lemma rows_change_only_in_status_witness :
  ∃ s, Items.run_ops (Cases.two_wallets ++ [Items.OpUpdate 2 (Sample.set_to "Found")])
         !! 1%nat
       = Some (Items.set_status s
                 (Items.mkItem 2 "Wallet" "Black leather" "Jane" "jane@example.com"
                    "Lost" (Some "receipt") (Some "Building B"))).
Proof. apply rows_change_only_in_status. reflexivity. Defined.

Lemma update_writes_one_row_witness :
  ∃ i : nat,
    Items.run_ops Cases.two_wallets !! i = Some Sample.lost_wallet
    ∧ (Items.update 1 (Sample.set_to "Found") (Items.run_ops Cases.two_wallets)).2
      = <[i := Items.set_status "Found" Sample.lost_wallet]>
          (Items.run_ops Cases.two_wallets).
Proof. apply update_writes_one_row; reflexivity. Defined.

Lemma update_back_restores_table_witness :
  (Items.update 1 (Sample.set_to "Lost")
     (Items.update 1 (Sample.set_to "Found") (Items.run_ops Cases.two_wallets)).2).2
  = Items.run_ops Cases.two_wallets.
Proof.
  apply (update_back_restores_table Cases.two_wallets 1 (Sample.set_to "Found")
           (Sample.set_to "Lost") Sample.lost_wallet); reflexivity.
Defined.
